(** * svd2regs: rendering of an SVD device model into register bindings

    A shallow embedding of [tools/svd2regs.py].  The script is Python 2
    ([print code] is a statement, [filter] returns a list).  Every
    [CodeBlock] subclass is, through [__new__], a function from a model
    object to the text [TEMPLATE.format( **fields(obj))]; it is embedded as
    such a function.  Python exceptions are values of [exn] threaded through
    a small error monad. *)

From Stdlib Require Import String Ascii List ZArith NArith Bool Lia.
From Stdlib Require Import Decimal DecimalString.
Import ListNotations.
Open Scope string_scope.

(** ** Python string primitives used by the script *)

Module Py.

Definition is_space (c : ascii) : bool :=
  let n := nat_of_ascii c in
  (n =? 32)%nat || ((9 <=? n)%nat && (n <=? 13)%nat).

Definition is_upper (c : ascii) : bool :=
  let n := nat_of_ascii c in (65 <=? n)%nat && (n <=? 90)%nat.

Definition is_lower (c : ascii) : bool :=
  let n := nat_of_ascii c in (97 <=? n)%nat && (n <=? 122)%nat.

Definition is_digit (c : ascii) : bool :=
  let n := nat_of_ascii c in (48 <=? n)%nat && (n <=? 57)%nat.

Definition to_lower (c : ascii) : ascii :=
  if is_upper c then ascii_of_nat (nat_of_ascii c + 32) else c.

Definition to_upper (c : ascii) : ascii :=
  if is_lower c then ascii_of_nat (nat_of_ascii c - 32) else c.

Fixpoint map_string (f : ascii -> ascii) (s : string) : string :=
  match s with
  | EmptyString => EmptyString
  | String c r => String (f c) (map_string f r)
  end.

(** [s.lower()] *)
Definition lower (s : string) : string := map_string to_lower s.

(** [s.title()]: [cased] records whether the previous character was a
    letter; a letter after a non-letter is upper-cased, a letter after a
    letter is lower-cased, anything else is kept. *)
Fixpoint title_from (cased : bool) (s : string) : string :=
  match s with
  | EmptyString => EmptyString
  | String c r =>
      if is_lower c then
        String (if cased then c else to_upper c) (title_from true r)
      else if is_upper c then
        String (if cased then to_lower c else c) (title_from true r)
      else String c (title_from false r)
  end.

Definition title (s : string) : string := title_from false s.

(** [s[:n]] *)
Fixpoint take (n : nat) (s : string) : string :=
  match n, s with
  | O, _ => EmptyString
  | _, EmptyString => EmptyString
  | S k, String c r => String c (take k r)
  end.

Fixpoint lstrip (s : string) : string :=
  match s with
  | EmptyString => EmptyString
  | String c r => if is_space c then lstrip r else s
  end.

Fixpoint rstrip (s : string) : string :=
  match s with
  | EmptyString => EmptyString
  | String c r =>
      match rstrip r with
      | EmptyString => if is_space c then EmptyString else String c EmptyString
      | r' => String c r'
      end
  end.

(** [s.strip()] *)
Definition strip (s : string) : string := rstrip (lstrip s).

(** [sep.join(parts)] *)
Fixpoint join (sep : string) (parts : list string) : string :=
  match parts with
  | [] => EmptyString
  | [p] => p
  | p :: rest => p ++ sep ++ join sep rest
  end.

(** [any(s.startswith(str(digit)) for digit in range(10))] *)
Definition startswith_digit (s : string) : bool :=
  match s with
  | EmptyString => false
  | String c _ => is_digit c
  end.

(** [str(n)] and the [{}] conversion of an integer *)
Definition str_int (z : Z) : string := NilZero.string_of_int (Z.to_int z).

Definition hex_digit (d : N) : ascii :=
  ascii_of_N (if (d <? 10)%N then 48 + d else 55 + d).

Fixpoint hex_pos (p : positive) (fuel : nat) (acc : string) : string :=
  match fuel with
  | O => acc
  | S k =>
      let q := (N.pos p / 16)%N in
      let acc' := String (hex_digit (N.pos p mod 16)) acc in
      match q with
      | N0 => acc'
      | Npos p' => hex_pos p' k acc'
      end
  end.

(** the [X] presentation: upper-case hexadecimal digits, a minus sign for a
    negative number *)
Definition hex_upper (z : Z) : string :=
  match z with
  | Z0 => "0"
  | Zpos p => hex_pos p (Pos.size_nat p) EmptyString
  | Zneg p => String "-" (hex_pos p (Pos.size_nat p) EmptyString)
  end.

Fixpoint spaces (n : nat) : string :=
  match n with
  | O => EmptyString
  | S k => String " " (spaces k)
  end.

(** the [{:8X}] conversion: minimum width 8, no fill character given, so a
    number is right-aligned and padded on the left with spaces *)
Definition format_8X (z : Z) : string :=
  let digits := hex_upper z in
  spaces (8 - String.length digits) ++ digits.

(** [needle in hay] on strings *)
Fixpoint contains (needle hay : string) : bool :=
  String.prefix needle hay
  || match hay with
     | EmptyString => false
     | String _ r => contains needle r
     end.

End Py.

(** ** Exceptions and the error monad *)

Inductive exn : Type :=
| AttributeError (msg : string)
| KeyError (key : string)
| LibraryError (msg : string).

Inductive result (A : Type) : Type :=
| Ok (a : A)
| Raise (e : exn).
Arguments Ok {A} a.
Arguments Raise {A} e.

Definition bind {A B} (m : result A) (k : A -> result B) : result B :=
  match m with
  | Ok a => k a
  | Raise e => Raise e
  end.

Notation "x <- m ;; k" := (bind m (fun x => k))
  (at level 61, m at next level, right associativity).

(** a generator consumed from left to right: the first exception stops it *)
Fixpoint mapM {A B} (f : A -> result B) (l : list A) : result (list B) :=
  match l with
  | [] => Ok []
  | a :: r => b <- f a ;; bs <- mapM f r ;; Ok (b :: bs)
  end.

(** the message an error carries, as Python prints it *)
Definition exn_message (e : exn) : string :=
  match e with
  | AttributeError msg => msg
  | KeyError key => "'" ++ key ++ "'"
  | LibraryError msg => msg
  end.

(** ** The object model read by the script (cmsis-svd objects) *)

Record EnumeratedValue : Type := mkEnum {
  e_name : string;
  e_description : string;
  e_value : Z
}.

Record Field : Type := mkField {
  f_name : string;
  f_description : string;
  bit_offset : Z;
  bit_width : Z;
  is_enumerated_type : bool;
  f_enumerated_values : list EnumeratedValue
}.

Record Register : Type := mkRegister {
  r_name : string;
  r_description : string;
  _size : Z;
  _access : string;
  _fields : list Field
}.

Record Peripheral : Type := mkPeripheral {
  p_name : string;
  p_description : string;
  base_address : Z;
  registers : list Register
}.

Record Device : Type := mkDevice {
  peripherals : list Peripheral
}.

(** a value tried by [enum_identifier]: text or an integer *)
Inductive pyval : Type :=
| VStr (s : string)
| VInt (z : Z).

Definition NL : string := String (ascii_of_nat 10) EmptyString.

Definition RUST_KEYWORDS : list string := ["mod"].
Definition COMMENT_MAX_LENGTH : nat := 80.

(** [x in l] for a list of strings *)
Definition str_in (x : string) (l : list string) : bool :=
  existsb (String.eqb x) l.

(** [def comment(text)] *)
Definition comment (text : string) : string :=
  "/// " ++ Py.strip (Py.take COMMENT_MAX_LENGTH text).

(** ** The code blocks *)

Section Svd2Regs.

(** [pydentifier.upper_camel], a function of an external package; it may
    raise. *)
Variable upper_camel : string -> result string.

(** [class Includes] *)
Definition Includes : string :=
  NL ++ "use kernel::StaticRef;" ++ NL
  ++ "use kernel::common::regs::{self, ReadOnly, ReadWrite, WriteOnly};" ++ NL
  ++ "    ".

(** [class PeripheralBaseDeclaration] *)
Definition PeripheralBaseDeclaration (peripheral : Peripheral) : string :=
  let name := p_name peripheral in
  let title := Py.title (p_name peripheral) in
  let base := base_address peripheral in
  NL ++ "const " ++ name ++ "_BASE: StaticRef<" ++ title ++ "Registers> =" ++ NL
  ++ "    unsafe { StaticRef::new(0x" ++ Py.format_8X base ++ " as *const "
  ++ title ++ "Registers) };" ++ NL.

Definition mode_map : list (string * string) :=
  [("read-only", "ReadOnly");
   ("read-write", "ReadWrite");
   ("write-only", "WriteOnly")].

(** [mode_map[key]] *)
Fixpoint getitem (m : list (string * string)) (key : string) : result string :=
  match m with
  | [] => Raise (KeyError key)
  | (k, v) :: r => if String.eqb k key then Ok v else getitem r key
  end.

(** [PeripheralStructField.fields.identifier] *)
Definition PeripheralStructField_identifier (name : string) : string :=
  let identifier := Py.lower name in
  if str_in identifier RUST_KEYWORDS then identifier ++ "_" else identifier.

(** [PeripheralStructField.fields.definition] *)
Definition PeripheralStructField_definition (reg : Register) : string :=
  if (length (_fields reg) =? 1)%nat then ""
  else ", " ++ r_name reg ++ "::Register".

(** [class PeripheralStructField] *)
Definition PeripheralStructField (register : Register) : result string :=
  let comment_ := comment (r_description register) in
  let name := PeripheralStructField_identifier (r_name register) in
  let size := Py.str_int (_size register) in
  mode <- getitem mode_map (_access register) ;;
  let definition_ := PeripheralStructField_definition register in
  Ok (comment_ ++ NL ++ name ++ ": " ++ mode ++ "<u" ++ size ++ definition_ ++ ">,").

(** [class PeripheralStruct] *)
Definition PeripheralStruct (peripheral : Peripheral) : result string :=
  let comment_ := comment (p_description peripheral) in
  let name := Py.title (p_name peripheral) in
  fields <- mapM PeripheralStructField (registers peripheral) ;;
  Ok (comment_ ++ NL ++ "#[repr(C, packed)]" ++ NL
      ++ "struct " ++ name ++ "Registers {" ++ NL
      ++ Py.join NL fields ++ NL ++ "}" ++ NL).

(** [BitfieldFieldEnum.fields.identifier]; an integer has no [startswith] *)
Definition BitfieldFieldEnum_identifier (desc : pyval)
  : result (option string) :=
  match desc with
  | VInt _ => Raise (AttributeError "'int' object has no attribute 'startswith'")
  | VStr s =>
      let desc := if Py.startswith_digit s then "_" ++ s else s in
      i <- upper_camel desc ;;
      Ok (if (String.length i <? 80)%nat then Some i else None)
  end.

(** [if i:] on [None] or a string *)
Definition truthy (i : option string) : bool :=
  match i with
  | Some (String _ _) => true
  | _ => false
  end.

(** the [for t in [...]] loop of [enum_identifier]; falling out of the
    loop returns [None] *)
Fixpoint first_usable (candidates : list pyval) : result (option string) :=
  match candidates with
  | [] => Ok None
  | t :: rest =>
      i <- BitfieldFieldEnum_identifier t ;;
      if truthy i then Ok i else first_usable rest
  end.

(** [BitfieldFieldEnum.fields.enum_identifier] *)
Definition BitfieldFieldEnum_enum_identifier (e : EnumeratedValue)
  : result (option string) :=
  first_usable [VStr (e_description e); VStr (e_name e); VInt (e_value e)].

(** the [{}] conversion of [None] or a string *)
Definition format_opt (i : option string) : string :=
  match i with
  | Some s => s
  | None => "None"
  end.

(** [class BitfieldFieldEnum] *)
Definition BitfieldFieldEnum (enum : EnumeratedValue) : result string :=
  let comment_ := comment (e_description enum) in
  name <- BitfieldFieldEnum_enum_identifier enum ;;
  let value := Py.str_int (e_value enum) in
  Ok ("        " ++ comment_ ++ NL
      ++ "        " ++ format_opt name ++ " = " ++ value).

(** [BitfieldField.enumerated_values]: [values] grows at its end *)
Definition enumerated_values_step
    (values : list EnumeratedValue) (value : EnumeratedValue) :=
  if negb (str_in (e_description value) (map e_description values))
  then (values ++ [value])%list else values.

Definition BitfieldField_enumerated_values (field : Field) : list EnumeratedValue :=
  fold_left enumerated_values_step (f_enumerated_values field) [].

(** [class BitfieldField] *)
Definition BitfieldField (field : Field) : result string :=
  enums <-
    (if negb (is_enumerated_type field) then Ok "[]"
     else
       enums <- mapM BitfieldFieldEnum (BitfieldField_enumerated_values field) ;;
       Ok ("[" ++ NL ++ Py.join ("," ++ NL) enums ++ NL ++ "    ]")) ;;
  Ok ("    " ++ comment (f_description field) ++ NL
      ++ "    " ++ f_name field
      ++ " OFFSET(" ++ Py.str_int (bit_offset field)
      ++ ") NUMBITS(" ++ Py.str_int (bit_width field) ++ ") " ++ enums).

(** [class Bitfield] *)
Definition Bitfield (register : Register) : result string :=
  fields <- mapM BitfieldField (_fields register) ;;
  Ok (NL ++ r_name register ++ " [" ++ NL
      ++ Py.join ("," ++ NL) fields ++ NL ++ "]").

(** [class BitfieldsMacro] *)
Definition BitfieldsMacro (registers : list Register) : result string :=
  bitfields <- mapM Bitfield registers ;;
  Ok ("register_bitfields![u" ++ Py.str_int 32 ++ ","
      ++ Py.join "," bitfields ++ NL ++ "];").

Definition generate_peripheral_struct (peripheral : Peripheral) :=
  PeripheralStruct peripheral.

Definition generate_bitfields_macro (registers : list Register) :=
  BitfieldsMacro registers.

(** [lambda r: len(r._fields) > 1] *)
Definition has_bitfields (r : Register) : bool :=
  (1 <? length (_fields r))%nat.

(** [def generate_peripherial] *)
Definition generate_peripherial (peripheral : Peripheral) : result string :=
  s <- generate_peripheral_struct peripheral ;;
  b <- generate_bitfields_macro (filter has_bitfields (registers peripheral)) ;;
  Ok (s ++ b ++ PeripheralBaseDeclaration peripheral).

(** [def generate] *)
Definition generate (peripherals : list Peripheral) : result string :=
  parts <- mapM generate_peripherial peripherals ;;
  Ok (Includes ++ Py.join NL parts).

(** [def parse], on the device the SVD parser returned *)
Definition parse (peripherals_ : list string) (dev : Device) : list Peripheral :=
  let peripherals_ :=
    match peripherals_ with
    | [] => map p_name (peripherals dev)
    | _ => peripherals_
    end in
  filter (fun p => str_in (p_name p) peripherals_) (peripherals dev).

(** the operation [render(device, selected_names)]: [generate(parse(...))]
    of [main] *)
Definition render (dev : Device) (selected_names : list string) : result string :=
  generate (parse selected_names dev).

End Svd2Regs.

Arguments Includes : simpl never.

(** ** A stand-in for the external [pydentifier.upper_camel]
    Words are the maximal runs of letters, digits and underscores; the first
    character of each word is upper-cased and the words are concatenated; a
    result that is empty or begins with a digit is refused.  It serves to
    run the code at concrete inputs; the theorems below hold for every
    [upper_camel]. *)

Definition is_word_char (c : ascii) : bool :=
  Py.is_lower c || Py.is_upper c || Py.is_digit c || Ascii.eqb c "_".

Fixpoint camel_from (start : bool) (s : string) : string :=
  match s with
  | EmptyString => EmptyString
  | String c r =>
      if is_word_char c
      then String (if start then Py.to_upper c else c) (camel_from false r)
      else camel_from true r
  end.

Definition upper_camel_model (s : string) : result string :=
  let i := camel_from true s in
  match i with
  | EmptyString => Raise (LibraryError "Invalid identifier")
  | String c _ =>
      if Py.is_digit c then Raise (LibraryError "Invalid identifier") else Ok i
  end.

(** ** Notions used in the statements *)

(** the peripherals a selection stands for, in the device's order *)
Definition selected (dev : Device) (sel : list string) : list Peripheral :=
  match sel with
  | [] => peripherals dev
  | _ => filter (fun p => str_in (p_name p) sel) (peripherals dev)
  end.

(** the list kept when the values are read in order and a description
    already seen is dropped *)
Fixpoint first_occurrences (seen : list string) (l : list EnumeratedValue)
  : list EnumeratedValue :=
  match l with
  | [] => []
  | v :: r =>
      if str_in (e_description v) seen then first_occurrences seen r
      else v :: first_occurrences (seen ++ [e_description v]) r
  end.

Definition same_description (v x : EnumeratedValue) : bool :=
  String.eqb (e_description x) (e_description v).

(** a register that differs from [r] by its bit width only *)
Definition with_size (w : Z) (r : Register) : Register :=
  mkRegister (r_name r) (r_description r) w (_access r) (_fields r).

(** the text [upper_camel] is applied to: an underscore goes before a
    leading digit *)
Definition digit_escaped (s : string) : string :=
  if Py.startswith_digit s then "_" ++ s else s.

(** a derived identifier passes the filter of [identifier] and the test
    [if i:] of [enum_identifier] *)
Definition usable (i : string) : Prop :=
  0 < String.length i < 80.

Fixpoint all_chars (ok : ascii -> bool) (s : string) : bool :=
  match s with
  | EmptyString => true
  | String c r => ok c && all_chars ok r
  end.


Definition no_startswith : exn :=
  AttributeError "'int' object has no attribute 'startswith'".

(** an error names [x] when its message contains [x] *)
Definition names (e : exn) (x : string) : bool :=
  Py.contains x (exn_message e).

(** *** Text modulo whitespace and comment lines *)

Definition is_newline (c : ascii) : bool := Ascii.eqb c (ascii_of_nat 10).

Definition no_newline (s : string) : bool :=
  all_chars (fun c => negb (is_newline c)) s.

Definition no_space (s : string) : bool :=
  all_chars (fun c => negb (Py.is_space c)) s.

Definition is_int_char (c : ascii) : bool :=
  Py.is_digit c || Ascii.eqb c "-".

(** the first line of a text and the lines after it *)
Fixpoint split_lines (s : string) : string * list string :=
  match s with
  | EmptyString => (EmptyString, [])
  | String c r =>
      let (l, ls) := split_lines r in
      if is_newline c then (EmptyString, l :: ls) else (String c l, ls)
  end.

Definition lines (s : string) : list string :=
  let (l, ls) := split_lines s in l :: ls.

Definition cons_word (w : string) (ws : list string) : list string :=
  match w with
  | EmptyString => ws
  | _ => w :: ws
  end.

(** the characters before the first blank and the words after it *)
Fixpoint split_words (s : string) : string * list string :=
  match s with
  | EmptyString => (EmptyString, [])
  | String c r =>
      let (w, ws) := split_words r in
      if Py.is_space c then (EmptyString, cons_word w ws) else (String c w, ws)
  end.

(** the maximal runs of non-blank characters *)
Definition words (s : string) : list string :=
  let (w, ws) := split_words s in cons_word w ws.

Definition is_comment_line (l : string) : bool :=
  String.prefix "///" (Py.lstrip l).

Definition line_words (l : string) : list string :=
  if is_comment_line l then [] else words l.

(** a text read modulo whitespace and comment lines: the words of its
    lines, those of comment lines left out *)
Definition code_words (text : string) : list string :=
  flat_map line_words (lines text).

(** ** Sample model fragments *)

Definition count_register : Register :=
  mkRegister "COUNT" "Counter value" 32 "read-write"
    [mkField "VALUE" "Current count" 0 32 false []].

Definition status_register : Register :=
  mkRegister "STATUS" "Status" 32 "read-only" [].

Definition timer : Peripheral :=
  mkPeripheral "TIMER" "Simple timer" 4096 [count_register].

Definition port_registers : list Register :=
  [mkRegister "DIR" "Direction" 16 "read-write"
     [mkField "IN" "Input" 0 8 false []; mkField "OUT" "Output" 8 8 false []];
   mkRegister "LOCK" "Lock" 8 "write-only"
     [mkField "KEY" "Key" 0 7 false []; mkField "EN" "Enable" 7 1 false []]].

Definition ctrl_register
    (description en_description mode_description fast_name slow_name : string)
    (v1 v2 : Z) : Register :=
  mkRegister "CTRL" description 32 "read-write"
    [mkField "EN" en_description 0 1 false [];
     mkField "MODE" mode_description 1 2 true
       [mkEnum fast_name "Fast" v1; mkEnum slow_name "Slow" v2]].

Fixpoint repeat_char (c : ascii) (n : nat) : string :=
  match n with
  | O => EmptyString
  | S k => String c (repeat_char c k)
  end.

Definition uart (name : string) (base : Z) : Peripheral :=
  mkPeripheral name "Serial port" base
    [ctrl_register "Control" "Enable" "Mode" "FAST" "SLOW" 0 1;
     mkRegister "DATA" "Data" 8 "read-write"
       [mkField "BYTE" "Data byte" 0 8 false []]].

Definition soc : Device :=
  mkDevice [uart "UART0" 1073745920; uart "UART1" 1073750016].

(** the text of a peripheral, empty where rendering fails *)
Definition text_of (p : Peripheral) : string :=
  match generate_peripherial upper_camel_model p with
  | Ok t => t
  | Raise _ => EmptyString
  end.

(** a value whose description and name are both 80 characters long *)
Definition long_value : EnumeratedValue :=
  mkEnum (repeat_char "b" 80) (repeat_char "a" 80) 1.

Definition long_field : Field :=
  mkField "MODE" "Mode" 1 2 true [long_value].

Definition long_register : Register :=
  mkRegister "CTRL" "Control" 32 "read-write"
    [mkField "EN" "Enable" 0 1 false []; long_field].

Definition long_peripheral : Peripheral :=
  mkPeripheral "UART0" "Serial port" 1073745920 [long_register].

Definition long_device : Device := mkDevice [long_peripheral].

Definition level_field : Field :=
  mkField "LEVEL" "Level" 0 2 true
    [mkEnum "ON" "on" 1; mkEnum "OFF" "off" 0; mkEnum "HIGH" "on" 3].

(** ** The command line: [rustfmt] and [main] *)

(** [s.lstrip(q)], [s.rstrip(q)] and [s.strip(q)] for a one-character [q] *)
Fixpoint lstrip_char (q : ascii) (s : string) : string :=
  match s with
  | EmptyString => EmptyString
  | String c r => if Ascii.eqb c q then lstrip_char q r else s
  end.

Fixpoint rstrip_char (q : ascii) (s : string) : string :=
  match s with
  | EmptyString => EmptyString
  | String c r =>
      match rstrip_char q r with
      | EmptyString => if Ascii.eqb c q then EmptyString else String c EmptyString
      | r' => String c r'
      end
  end.

Definition strip_char (q : ascii) (s : string) : string :=
  rstrip_char q (lstrip_char q s).

(** [s.split(sep)] for a one-character [sep]: empty pieces are kept *)
Fixpoint split_char (sep : ascii) (s : string) : list string :=
  match s with
  | EmptyString => [EmptyString]
  | String c r =>
      if Ascii.eqb c sep then EmptyString :: split_char sep r
      else match split_char sep r with
           | w :: ws => String c w :: ws
           | [] => [String c EmptyString]
           end
  end.

(** how a call ends: it returns, it leaves through [sys.exit()] after
    printing, or an exception escapes *)
Inductive run (A : Type) : Type :=
| Done (a : A)
| SysExit (status : Z) (printed : list string)
| Uncaught (e : exn).
Arguments Done {A} a.
Arguments SysExit {A} status printed.
Arguments Uncaught {A} e.

(** what the SVD parser of [get_parser] and its [get_device] do: they give
    a device, raise [IOError], or raise something else *)
Inductive loaded : Type :=
| Loaded (dev : Device)
| NoFile
| LoadError (e : exn).

(** the arguments [main] reads: [args.peripherals], [args.fmt] ([None]
    without [--fmt], the empty text for a bare [--fmt]) and [args.path].
    The call [parse_args()] is a [run Args]: argparse returns the
    arguments, or leaves through [sys.exit] after printing (status 2 on a
    usage error, status 0 after [-h]), or an exception escapes. *)
Record Args : Type := mkArgs {
  a_peripherals : list string;
  a_fmt : option string;
  a_path : string
}.

Section CommandLine.

Variable upper_camel : string -> result string.

(** [Popen(cmd, ...).communicate(code)]: the texts on standard output and
    on standard error, unless starting the process raises *)
Variable popen : list string -> string -> result (string * string).

(** [def rustfmt(code, path, *args)] *)
Definition rustfmt (code path : string) (args : list string) : run string :=
  let cmd := cons (path ++ "rustfmt") args in
  match popen cmd code with
  | Raise e => Uncaught e
  | Ok (out, err) =>
      match err with
      | String _ _ => SysExit 0 [code; err]
      | EmptyString => Done out
      end
  end.

(** [get_parser] followed by [get_device] *)
Definition get_device (svd : loaded) : run Device :=
  match svd with
  | Loaded dev => Done dev
  | NoFile => SysExit 0 ["No SVD file found"]
  | LoadError e => Uncaught e
  end.

(** the arguments [main] hands to [rustfmt]:
    [args.fmt.strip("'").split(" ")] *)
Definition rustfmt_args (fmt : string) : list string :=
  split_char " " (strip_char "'" fmt).

(** [def main]: [parse_args] is what the call [parse_args()] of its first
    line does; [Done code] stands for [args.save.write(code)] *)
Definition main (parse_args : run Args) (svd : loaded) : run string :=
  match parse_args with
  | SysExit status printed => SysExit status printed
  | Uncaught e => Uncaught e
  | Done args =>
      match get_device svd with
      | SysExit status printed => SysExit status printed
      | Uncaught e => Uncaught e
      | Done dev =>
          match generate upper_camel (parse (a_peripherals args) dev) with
          | Raise e => Uncaught e
          | Ok code =>
              match a_fmt args with
              | None => Done code
              | Some fmt => rustfmt code (a_path args) (rustfmt_args fmt)
              end
          end
      end
  end.

End CommandLine.

(** *** Further notions used in the statements *)

(** the access modes of [mode_map] *)
Definition known_access (r : Register) : bool :=
  str_in (_access r) (map fst mode_map).

Definition is_blank_text (s : string) : bool := all_chars Py.is_space s.

(** the number denoted by upper-case hexadecimal digits *)
Definition hex_digit_value (c : ascii) : option Z :=
  let n := Z.of_nat (nat_of_ascii c) in
  if Py.is_digit c then Some (n - 48)%Z
  else if ((65 <=? n) && (n <=? 70))%Z then Some (n - 55)%Z
  else None.

Fixpoint hex_value_from (acc : Z) (s : string) : option Z :=
  match s with
  | EmptyString => Some acc
  | String c r =>
      match hex_digit_value c with
      | Some d => hex_value_from (16 * acc + d) r
      | None => None
      end
  end.

Definition hex_value (s : string) : option Z :=
  match s with
  | EmptyString => None
  | _ => hex_value_from 0 s
  end.

(** two registers that differ at most by the one field each has *)
Definition same_but_single_field (r r' : Register) : Prop :=
  r_name r = r_name r' /\ r_description r = r_description r'
  /\ _size r = _size r' /\ _access r = _access r'
  /\ (_fields r = _fields r'
      \/ (length (_fields r) = 1 /\ length (_fields r') = 1)).

(** *** Further sample fragments *)

Definition odd_register : Register :=
  mkRegister "ONCE" "Written once" 32 "writeOnce"
    [mkField "A" "First" 0 1 true [long_value];
     mkField "B" "Second" 1 1 false []].

Definition odd_peripheral : Peripheral :=
  mkPeripheral "OTP" "One-time memory" 1342177280
    [count_register; odd_register; long_register].

Definition unnamed_value : EnumeratedValue := mkEnum "IDLE" "" 0.

Definition popen_quiet (cmd : list string) (code : string)
  : result (string * string) :=
  Ok (Py.join " " cmd, EmptyString).

Definition popen_failing (cmd : list string) (code : string)
  : result (string * string) :=
  Ok ("fn main() {}", "error: unexpected token").

Definition timer_device : Device := mkDevice [timer].

(** argparse leaving on a command line without [--mcu] or [--svd] *)
Definition usage_error : run Args :=
  SysExit 2 ["svd2regs.py: error: one of the arguments --mcu --svd is required"].

(** a value whose description, name and literal all give an identifier of
    80 or more characters *)
Definition unusable_value : EnumeratedValue :=
  mkEnum (repeat_char "b" 80) (repeat_char "a" 80) (10 ^ 79).

Definition unusable_device : Device :=
  mkDevice
    [mkPeripheral "UART0" "Serial port" 1073745920
       [mkRegister "CTRL" "Control" 32 "read-write"
          [mkField "EN" "Enable" 0 1 false [];
           mkField "MODE" "Mode" 1 2 true [unusable_value]]]].

(** ** General facts about the monad and the primitives *)

Lemma str_in_In (x : string) (l : list string) :
  str_in x l = true <-> In x l.
Proof.
  unfold str_in. rewrite existsb_exists. split.
  - intros [y [Hy He]]. apply String.eqb_eq in He. now subst.
  - intros H. exists x. split; [assumption | apply String.eqb_refl].
Qed.

Lemma str_in_false (x : string) (l : list string) :
  str_in x l = false <-> ~ In x l.
Proof.
  rewrite <- str_in_In. destruct (str_in x l); split; congruence.
Qed.

Lemma append_assoc (a b c : string) : (a ++ b) ++ c = a ++ b ++ c.
Proof. induction a as [|x a IH]; simpl; [reflexivity | now rewrite IH]. Qed.

Lemma mapM_Ok_map {A B} (f : A -> result B) (g : A -> B) (l : list A) :
  (forall a, In a l -> f a = Ok (g a)) -> mapM f l = Ok (map g l).
Proof.
  induction l as [|a r IH]; intros H; simpl.
  - reflexivity.
  - rewrite (H a (or_introl eq_refl)). simpl.
    rewrite IH by (intros b Hb; apply H; now right). reflexivity.
Qed.

Lemma mapM_length {A B} (f : A -> result B) (l : list A) (bs : list B) :
  mapM f l = Ok bs -> length bs = length l.
Proof.
  revert bs. induction l as [|a r IH]; intros bs H; simpl in H.
  - now inversion H.
  - destruct (f a) as [b|e]; simpl in H; [|discriminate].
    destruct (mapM f r) as [bs'|e]; simpl in H; [|discriminate].
    inversion H; subst. simpl. f_equal. now apply IH.
Qed.

Lemma mapM_raise {A B} (f : A -> result B) (l : list A) (a : A) (e : exn) :
  In a l -> f a = Raise e -> exists e', mapM f l = Raise e'.
Proof.
  induction l as [|x r IH]; intros Hin Hf; [contradiction|].
  simpl. destruct Hin as [->|Hin].
  - rewrite Hf. now exists e.
  - destruct (f x) as [b|e0]; simpl; [|now exists e0].
    destruct (IH Hin Hf) as [e' ->]. now exists e'.
Qed.

(** ** The assembler: [parse], [generate], [render] *)

Section Assembler.

Variable upper_camel : string -> result string.

Lemma parse_empty (dev : Device) : parse [] dev = peripherals dev.
Proof.
  unfold parse.
  set (names := map p_name (peripherals dev)).
  assert (H : forall p, In p (peripherals dev) -> str_in (p_name p) names = true).
  { intros p Hp. apply str_in_In. unfold names. now apply in_map. }
  clearbody names.
  induction (peripherals dev) as [|p r IH]; simpl.
  - reflexivity.
  - rewrite (H p (or_introl eq_refl)). f_equal.
    apply IH. intros q Hq. apply H. now right.
Qed.

Lemma parse_nonempty (dev : Device) (sel : list string) :
  sel <> [] ->
  parse sel dev = filter (fun p => str_in (p_name p) sel) (peripherals dev).
Proof. destruct sel; [congruence | reflexivity]. Qed.

Lemma parse_selected (dev : Device) (sel : list string) :
  parse sel dev = selected dev sel.
Proof.
  destruct sel as [|x r]; [apply parse_empty | reflexivity].
Qed.

Lemma render_selected
    (dev : Device) (sel : list string) (text : Peripheral -> string) :
  (forall p, In p (selected dev sel) ->
             generate_peripherial upper_camel p = Ok (text p)) ->
  render upper_camel dev sel
  = Ok (Includes ++ Py.join NL (map text (selected dev sel))).
Proof.
  intros H. unfold render, generate. rewrite parse_selected.
  rewrite (mapM_Ok_map _ text) by assumption. reflexivity.
Qed.

(** C9: with an empty selection every peripheral is rendered, with a
    non-empty one exactly those whose name is selected; the output is the
    prelude followed by the texts of these peripherals, joined in the
    device's order, none moved and none dropped as a duplicate. *)
Theorem C9_render_selection
    (dev : Device) (sel : list string) (text : Peripheral -> string) :
  (forall p, In p (parse sel dev) ->
             generate_peripherial upper_camel p = Ok (text p)) ->
  parse sel dev = selected dev sel
  /\ (sel = [] ->
      render upper_camel dev sel
      = Ok (Includes ++ Py.join NL (map text (peripherals dev))))
  /\ (sel <> [] ->
      render upper_camel dev sel
      = Ok (Includes
            ++ Py.join NL
                 (map text (filter (fun p => str_in (p_name p) sel)
                                   (peripherals dev))))).
Proof.
  intros H. rewrite parse_selected in H.
  assert (R := render_selected dev sel text H).
  split; [apply parse_selected|].
  split; intros Hs.
  - subst sel. exact R.
  - destruct sel as [|x r]; [congruence | exact R].
Qed.

(** C1 as amended: a selected name that no peripheral bears is skipped
    without an error of its own: the call renders the peripherals whose
    name is selected, none of which bears the missing name, and returns the
    prelude alone when no selected name is present. *)
Theorem C1_missing_name_skipped
    (dev : Device) (sel : list string) (x : string) :
  In x sel ->
  ~ In x (map p_name (peripherals dev)) ->
  render upper_camel dev sel
  = generate upper_camel
      (filter (fun p => str_in (p_name p) sel) (peripherals dev))
  /\ (forall p, In p (parse sel dev) -> In (p_name p) sel /\ p_name p <> x)
  /\ ((forall y, In y sel -> ~ In y (map p_name (peripherals dev))) ->
      render upper_camel dev sel = Ok Includes).
Proof.
  intros Hx Hmiss.
  assert (Hne : sel <> []) by (intros ->; contradiction).
  unfold render. rewrite (parse_nonempty dev sel Hne).
  split; [reflexivity | split].
  - intros p Hp. apply filter_In in Hp. destruct Hp as [Hp Hs].
    apply str_in_In in Hs. split; [assumption|].
    intros E. apply Hmiss. rewrite <- E. now apply in_map.
  - intros Hall.
    assert (E : filter (fun p => str_in (p_name p) sel) (peripherals dev) = []).
    { clear Hmiss. induction (peripherals dev) as [|p r IH]; [reflexivity|].
      simpl.
      assert (Hp : str_in (p_name p) sel = false).
      { apply str_in_false. intros Hin. apply (Hall _ Hin). now left. }
      rewrite Hp. apply IH.
      intros y Hy Hin. apply (Hall y Hy). now right. }
    rewrite E. reflexivity.
Qed.

End Assembler.

(** ** Enumerated values of a field: one variant per description *)

Lemma fold_enumerated_values (l acc : list EnumeratedValue) :
  fold_left enumerated_values_step l acc
  = (acc ++ first_occurrences (map e_description acc) l)%list.
Proof.
  revert acc. induction l as [|v r IH]; intros acc; simpl.
  - now rewrite app_nil_r.
  - unfold enumerated_values_step at 2.
    destruct (str_in (e_description v) (map e_description acc)); simpl.
    + apply IH.
    + rewrite IH, map_app, <- app_assoc. reflexivity.
Qed.

Lemma enumerated_values_first_occurrences (f : Field) :
  BitfieldField_enumerated_values f
  = first_occurrences [] (f_enumerated_values f).
Proof.
  unfold BitfieldField_enumerated_values. now rewrite fold_enumerated_values.
Qed.

Lemma first_occurrences_In seen l v :
  In v (first_occurrences seen l) -> In v l /\ ~ In (e_description v) seen.
Proof.
  revert seen. induction l as [|w r IH]; intros seen H; simpl in H.
  - contradiction.
  - destruct (str_in (e_description w) seen) eqn:E.
    + destruct (IH _ H). split; [now right | assumption].
    + destruct H as [->|H].
      * split; [now left | now apply str_in_false].
      * destruct (IH _ H) as [Hin Hn]. split; [now right|].
        intros Hs. apply Hn. apply in_or_app. now left.
Qed.

Lemma first_occurrences_NoDup seen l :
  NoDup (map e_description (first_occurrences seen l)).
Proof.
  revert seen. induction l as [|w r IH]; intros seen; simpl.
  - constructor.
  - destruct (str_in (e_description w) seen); [apply IH|].
    simpl. constructor; [|apply IH].
    intros Hin. apply in_map_iff in Hin. destruct Hin as [v [Ev Hv]].
    apply first_occurrences_In in Hv. destruct Hv as [_ Hn].
    apply Hn. rewrite Ev. apply in_or_app. right. now left.
Qed.

Lemma first_occurrences_complete seen l d :
  In d (map e_description l) -> ~ In d seen ->
  In d (map e_description (first_occurrences seen l)).
Proof.
  revert seen. induction l as [|w r IH]; intros seen Hd Hn; simpl in *.
  - contradiction.
  - destruct (str_in (e_description w) seen) eqn:E.
    + apply IH; [|assumption]. destruct Hd as [<-|Hd]; [|assumption].
      apply str_in_In in E. contradiction.
    + simpl. destruct (string_dec (e_description w) d) as [->|Hne].
      * now left.
      * right. apply IH.
        -- destruct Hd; [contradiction | assumption].
        -- intros Hin. apply in_app_or in Hin.
           destruct Hin as [|[|[]]]; contradiction.
Qed.

Lemma first_occurrences_find seen l v :
  In v (first_occurrences seen l) -> find (same_description v) l = Some v.
Proof.
  revert seen. induction l as [|w r IH]; intros seen H; simpl in H.
  - contradiction.
  - simpl. unfold same_description at 1.
    destruct (str_in (e_description w) seen) eqn:E.
    + destruct (first_occurrences_In _ _ _ H) as [_ Hn].
      destruct (String.eqb_spec (e_description w) (e_description v)) as [Eq|_].
      * apply str_in_In in E. rewrite Eq in E. contradiction.
      * now apply IH with seen.
    + destruct H as [->|H].
      * now rewrite String.eqb_refl.
      * destruct (first_occurrences_In _ _ _ H) as [_ Hn].
        destruct (String.eqb_spec (e_description w) (e_description v)) as [Eq|_].
        -- exfalso. apply Hn. apply in_or_app. right. now left.
        -- now apply IH with (seen ++ [e_description w])%list.
Qed.

Lemma distinct_count (l1 l2 : list string) :
  NoDup l1 -> (forall d, In d l1 <-> In d l2) ->
  length l1 = length (nodup string_dec l2).
Proof.
  intros N H. apply Nat.le_antisymm.
  - apply NoDup_incl_length; [assumption|].
    intros d Hd. apply nodup_In. now apply H.
  - apply NoDup_incl_length; [apply NoDup_nodup|].
    intros d Hd. apply nodup_In in Hd. now apply H.
Qed.

Lemma mapM_Forall2 {A B} (f : A -> result B) (l : list A) (bs : list B) :
  mapM f l = Ok bs -> Forall2 (fun a b => f a = Ok b) l bs.
Proof.
  revert bs. induction l as [|a r IH]; intros bs H; simpl in H.
  - inversion H. constructor.
  - destruct (f a) as [b|e] eqn:E; simpl in H; [|discriminate].
    destruct (mapM f r) as [bs'|e]; simpl in H; [|discriminate].
    inversion H; subst. constructor; [assumption | now apply IH].
Qed.

Lemma BitfieldFieldEnum_Ok upper_camel (v : EnumeratedValue) (t : string) :
  BitfieldFieldEnum upper_camel v = Ok t ->
  exists name,
    t = "        " ++ comment (e_description v) ++ NL
        ++ "        " ++ name ++ " = " ++ Py.str_int (e_value v).
Proof.
  unfold BitfieldFieldEnum.
  destruct (BitfieldFieldEnum_enum_identifier upper_camel v) as [o|x];
    cbn [bind]; [|discriminate].
  intros H. exists (format_opt o). now inversion H.
Qed.

(** C7: the values rendered for a field are its enumerated values read in
    order with only the first occurrence of each description kept: there are
    as many as distinct descriptions, each is the first value bearing its
    description, and the emitted list has one variant text per kept value,
    in order, written with that value's literal. *)
Theorem C7_first_occurrence_per_description (f : Field) :
  let vals := f_enumerated_values f in
  let kept := BitfieldField_enumerated_values f in
  kept = first_occurrences [] vals
  /\ NoDup (map e_description kept)
  /\ length kept = length (nodup string_dec (map e_description vals))
  /\ (forall v, In v kept -> find (same_description v) vals = Some v)
  /\ (forall upper_camel out,
        is_enumerated_type f = true ->
        BitfieldField upper_camel f = Ok out ->
        exists enums,
          mapM (BitfieldFieldEnum upper_camel) kept = Ok enums
          /\ length enums = length (nodup string_dec (map e_description vals))
          /\ Forall2
               (fun v t =>
                  exists name,
                    t = "        " ++ comment (e_description v) ++ NL
                        ++ "        " ++ name ++ " = "
                        ++ Py.str_int (e_value v))
               kept enums
          /\ out = "    " ++ comment (f_description f) ++ NL
                   ++ "    " ++ f_name f
                   ++ " OFFSET(" ++ Py.str_int (bit_offset f)
                   ++ ") NUMBITS(" ++ Py.str_int (bit_width f) ++ ") "
                   ++ "[" ++ NL ++ Py.join ("," ++ NL) enums ++ NL ++ "    ]").
Proof.
  intros vals kept.
  assert (E : kept = first_occurrences [] vals)
    by apply enumerated_values_first_occurrences.
  assert (N : NoDup (map e_description kept))
    by (rewrite E; apply first_occurrences_NoDup).
  assert (L : length kept = length (nodup string_dec (map e_description vals))).
  { rewrite <- (length_map e_description). apply distinct_count; [assumption|].
    intros d. rewrite E. split.
    - intros Hd. apply in_map_iff in Hd. destruct Hd as [v [<- Hv]].
      apply first_occurrences_In in Hv. apply in_map. tauto.
    - intros Hd. apply first_occurrences_complete; [assumption | tauto]. }
  repeat split; try assumption.
  - intros v Hv. rewrite E in Hv. now apply first_occurrences_find with [].
  - intros uc out Hen Hout. unfold BitfieldField in Hout.
    rewrite Hen in Hout. simpl negb in Hout. cbv iota in Hout.
    fold kept in Hout.
    destruct (mapM (BitfieldFieldEnum uc) kept) as [enums|e] eqn:M;
      cbn [bind] in Hout; [|discriminate].
    exists enums. split; [reflexivity|]. split; [|split].
    + rewrite <- L. now apply mapM_length with (f := BitfieldFieldEnum uc).
    + apply mapM_Forall2 in M. revert M. apply Forall2_impl.
      intros v t. apply BitfieldFieldEnum_Ok.
    + inversion Hout. reflexivity.
Qed.

(** ** The peripheral renderer *)

Section PeripheralRenderer.

Variable upper_camel : string -> result string.

Lemma BitfieldField_plain (f : Field) :
  is_enumerated_type f = false ->
  BitfieldField upper_camel f
  = Ok ("    " ++ comment (f_description f) ++ NL
        ++ "    " ++ f_name f
        ++ " OFFSET(" ++ Py.str_int (bit_offset f)
        ++ ") NUMBITS(" ++ Py.str_int (bit_width f) ++ ") []").
Proof. intros H. unfold BitfieldField. rewrite H. reflexivity. Qed.

Lemma Bitfield_plain (r : Register) :
  (forall f, In f (_fields r) -> is_enumerated_type f = false) ->
  exists block, Bitfield upper_camel r = Ok block.
Proof.
  intros H. unfold Bitfield.
  rewrite (mapM_Ok_map _ (fun f =>
    "    " ++ comment (f_description f) ++ NL
    ++ "    " ++ f_name f
    ++ " OFFSET(" ++ Py.str_int (bit_offset f)
    ++ ") NUMBITS(" ++ Py.str_int (bit_width f) ++ ") []")).
  - eexists. reflexivity.
  - intros f Hf. apply BitfieldField_plain. now apply H.
Qed.

Lemma mapM_total {A B} (f : A -> result B) (l : list A) :
  (forall a, In a l -> exists b, f a = Ok b) -> exists bs, mapM f l = Ok bs.
Proof.
  induction l as [|a r IH]; intros H; simpl.
  - now exists [].
  - destruct (H a (or_introl eq_refl)) as [b ->].
    destruct IH as [bs ->]; [intros x Hx; apply H; now right|].
    now exists (b :: bs).
Qed.

Lemma mapM_Bitfield_with_size (w : Z) (regs : list Register) :
  mapM (Bitfield upper_camel) (map (with_size w) regs)
  = mapM (Bitfield upper_camel) regs.
Proof.
  induction regs as [|r rs IH]; simpl; [reflexivity|].
  now rewrite IH.
Qed.

(** C10: the bitfields container always declares [u32]: whatever the
    registers and their bit widths, its text begins [register_bitfields![u32,]
    and is unchanged when every register is given another width. *)
Theorem C10_container_width_u32 (regs : list Register) :
  (forall blocks,
     mapM (Bitfield upper_camel) regs = Ok blocks ->
     BitfieldsMacro upper_camel regs
     = Ok ("register_bitfields![u32," ++ Py.join "," blocks ++ NL ++ "];"))
  /\ (forall w,
        BitfieldsMacro upper_camel (map (with_size w) regs)
        = BitfieldsMacro upper_camel regs)
  /\ ((forall r f, In r regs -> In f (_fields r) ->
                   is_enumerated_type f = false) ->
      exists blocks,
        BitfieldsMacro upper_camel regs
        = Ok ("register_bitfields![u32," ++ Py.join "," blocks ++ NL ++ "];")).
Proof.
  assert (G : forall blocks,
     mapM (Bitfield upper_camel) regs = Ok blocks ->
     BitfieldsMacro upper_camel regs
     = Ok ("register_bitfields![u32," ++ Py.join "," blocks ++ NL ++ "];")).
  { intros blocks H. unfold BitfieldsMacro. rewrite H. reflexivity. }
  split; [exact G | split].
  - intros w. unfold BitfieldsMacro. now rewrite mapM_Bitfield_with_size.
  - intros H.
    destruct (mapM_total (Bitfield upper_camel) regs) as [blocks Hb].
    { intros r Hr. apply Bitfield_plain. intros f Hf. now apply (H r f). }
    exists blocks. now apply G.
Qed.

Lemma filter_has_bitfields_nil (regs : list Register) :
  (forall r, In r regs -> (length (_fields r) <= 1)%nat) ->
  filter has_bitfields regs = [].
Proof.
  induction regs as [|r rs IH]; intros H; simpl; [reflexivity|].
  assert (E : has_bitfields r = false).
  { unfold has_bitfields. apply Nat.ltb_ge. apply H. now left. }
  rewrite E. apply IH. intros x Hx. apply H. now right.
Qed.

(** C3 as amended: for a peripheral none of whose registers has more than
    one field the bitfields container is still emitted, as the empty
    construct [register_bitfields![u32,] newline [];], between the struct
    declaration and the base-address declaration. *)
Theorem C3_empty_container_emitted (p : Peripheral) :
  (forall r, In r (registers p) -> (length (_fields r) <= 1)%nat) ->
  generate_peripherial upper_camel p
  = (s <- PeripheralStruct p ;;
     Ok (s ++ "register_bitfields![u32," ++ NL ++ "];"
         ++ PeripheralBaseDeclaration p)).
Proof.
  intros H. unfold generate_peripherial, generate_peripheral_struct,
    generate_bitfields_macro.
  rewrite (filter_has_bitfields_nil _ H). reflexivity.
Qed.

End PeripheralRenderer.

(** ** Base addresses *)

Lemma hex_pos_length (fuel : nat) :
  forall (p : positive) (acc : string) (k : nat),
    (N.pos p < 16 ^ N.of_nat k)%N ->
    String.length (Py.hex_pos p fuel acc) <= k + String.length acc.
Proof.
  induction fuel as [|fuel IH]; intros p acc k H; simpl.
  - lia.
  - destruct k as [|k].
    { simpl in H. lia. }
    assert (Hq : (N.pos p / 16 < 16 ^ N.of_nat k)%N).
    { apply N.Div0.div_lt_upper_bound.
      rewrite Nat2N.inj_succ, N.pow_succ_r' in H. exact H. }
    destruct (N.pos p / 16)%N as [|p'] eqn:E.
    + simpl. lia.
    + specialize (IH p' (String (Py.hex_digit (N.pos p mod 16)) acc) k Hq).
      simpl in IH. lia.
Qed.

Lemma spaces_succ (n : nat) (s : string) :
  0 < n -> exists rest, Py.spaces n ++ s = String " " rest.
Proof. destruct n; [lia|]. intros _. simpl. eexists. reflexivity. Qed.

(** Every base address below [0x10000000] is written with blanks between
    [0x] and its digits. *)
Lemma format_8X_padded (z : Z) :
  (0 <= z < 268435456)%Z -> exists rest, Py.format_8X z = String " " rest.
Proof.
  intros H. unfold Py.format_8X. apply spaces_succ.
  destruct z as [|p|p]; [simpl; lia | | lia].
  unfold Py.hex_upper.
  assert (L : String.length (Py.hex_pos p (Pos.size_nat p) "") <= 7 + 0).
  { apply (hex_pos_length (Pos.size_nat p) p EmptyString 7).
    change (16 ^ N.of_nat 7)%N with 268435456%N. lia. }
  lia.
Qed.

(** Every peripheral whose base address has fewer than eight hexadecimal
    digits gets a declaration with a blank after [0x]. *)
Lemma PeripheralBaseDeclaration_blank_padded (p : Peripheral) :
  (0 <= base_address p < 268435456)%Z ->
  exists rest,
    PeripheralBaseDeclaration p
    = NL ++ "const " ++ p_name p ++ "_BASE: StaticRef<"
      ++ Py.title (p_name p) ++ "Registers> =" ++ NL
      ++ "    unsafe { StaticRef::new(0x" ++ String " " rest
      ++ " as *const " ++ Py.title (p_name p) ++ "Registers) };" ++ NL.
Proof.
  intros H. destruct (format_8X_padded _ H) as [rest E].
  exists rest. unfold PeripheralBaseDeclaration. now rewrite E.
Qed.

(** C8, at the base address [0x1000]: the declaration reads
    [0x    1000], four blanks between the prefix and the digits, where the
    address in hexadecimal is [1000]: neither [0x1000] nor [0x00001000]
    occurs in it.  An address of eight digits is written without blanks. *)
Theorem C8_base_address_blank_padded :
  PeripheralBaseDeclaration timer
  = NL ++ "const TIMER_BASE: StaticRef<TimerRegisters> =" ++ NL
    ++ "    unsafe { StaticRef::new(0x    1000 as *const TimerRegisters) };"
    ++ NL
  /\ Py.hex_upper (base_address timer) = "1000"
  /\ Py.contains "0x1000" (PeripheralBaseDeclaration timer) = false
  /\ Py.contains "0x00001000" (PeripheralBaseDeclaration timer) = false
  /\ PeripheralBaseDeclaration (mkPeripheral "TIMER" "Simple timer" 1073741824 [])
     = NL ++ "const TIMER_BASE: StaticRef<TimerRegisters> =" ++ NL
       ++ "    unsafe { StaticRef::new(0x40000000 as *const TimerRegisters) };"
       ++ NL.
Proof. repeat split. Qed.

(** ** Struct members *)

Lemma PeripheralStructField_definition_spec (r : Register) :
  (length (_fields r) = 1 -> PeripheralStructField_definition r = "")
  /\ (length (_fields r) <> 1 ->
      PeripheralStructField_definition r = ", " ++ r_name r ++ "::Register").
Proof.
  unfold PeripheralStructField_definition.
  destruct (Nat.eqb_spec (length (_fields r)) 1); split; intros; congruence.
Qed.

(** C4, at a register without fields: the member line refers to
    [STATUS::Register], yet the register has no bitfield block: it is not
    among those passed to the bitfields container, which holds no block. *)
Theorem C4_zero_field_register_reference :
  PeripheralStructField status_register
  = Ok ("/// Status" ++ NL ++ "status: ReadOnly<u32, STATUS::Register>,")
  /\ filter has_bitfields [status_register] = []
  /\ generate_peripherial upper_camel_model
       (mkPeripheral "SYS" "System" 1073741824 [status_register])
     = Ok ("/// System" ++ NL
           ++ "#[repr(C, packed)]" ++ NL
           ++ "struct SysRegisters {" ++ NL
           ++ "/// Status" ++ NL
           ++ "status: ReadOnly<u32, STATUS::Register>," ++ NL
           ++ "}" ++ NL
           ++ "register_bitfields![u32," ++ NL
           ++ "];" ++ NL
           ++ "const SYS_BASE: StaticRef<SysRegisters> =" ++ NL
           ++ "    unsafe { StaticRef::new(0x40000000 as *const SysRegisters) };"
           ++ NL).
Proof. repeat split. Qed.

(** ** Identifiers *)

Section Identifiers.

Variable upper_camel : string -> result string.

Lemma truthy_usable (i : string) :
  truthy (if (String.length i <? 80)%nat then Some i else None) = true
  <-> usable i.
Proof.
  unfold usable. destruct (Nat.ltb_spec (String.length i) 80); simpl.
  - destruct i; simpl in *; split; intros; try discriminate; try lia; auto.
  - split; [discriminate | lia].
Qed.

Lemma BitfieldFieldEnum_identifier_text (s : string) :
  BitfieldFieldEnum_identifier upper_camel (VStr s)
  = (i <- upper_camel (digit_escaped s) ;;
     Ok (if (String.length i <? 80)%nat then Some i else None)).
Proof. reflexivity. Qed.


(** what [enum_identifier] does when neither the description nor the name
    gives a usable identifier: it goes on to the integer value *)
Lemma enum_identifier_unusable (e : EnumeratedValue) (d n : string) :
  upper_camel (digit_escaped (e_description e)) = Ok d ->
  upper_camel (digit_escaped (e_name e)) = Ok n ->
  ~ usable d -> ~ usable n ->
  BitfieldFieldEnum_enum_identifier upper_camel e
  = Raise (AttributeError "'int' object has no attribute 'startswith'").
Proof.
  intros Hd Hn Ud Un.
  unfold BitfieldFieldEnum_enum_identifier. cbn [first_usable].
  rewrite !BitfieldFieldEnum_identifier_text, Hd, Hn. cbn [bind].
  rewrite <- truthy_usable in Ud, Un.
  apply not_true_is_false in Ud, Un. rewrite Ud, Un. reflexivity.
Qed.

Lemma PeripheralStructField_identifier_spec (name : string) :
  PeripheralStructField_identifier name
  = (if String.eqb (Py.lower name) "mod" then "mod_" else Py.lower name)
  /\ str_in (PeripheralStructField_identifier name) RUST_KEYWORDS = false.
Proof.
  unfold PeripheralStructField_identifier, RUST_KEYWORDS, str_in.
  cbn [existsb]. rewrite orb_false_r.
  destruct (String.eqb_spec (Py.lower name) "mod") as [->|Hne].
  - split; reflexivity.
  - split; [reflexivity|]. rewrite orb_false_r.
    now apply String.eqb_neq.
Qed.


End Identifiers.

(** ** Failure of an enumerated value *)

Section Failure.

Variable upper_camel : string -> result string.

Lemma BitfieldField_raise (f : Field) (e : EnumeratedValue) (x : exn) :
  is_enumerated_type f = true ->
  In e (BitfieldField_enumerated_values f) ->
  BitfieldFieldEnum upper_camel e = Raise x ->
  exists x', BitfieldField upper_camel f = Raise x'.
Proof.
  intros Hen Hin He. unfold BitfieldField. rewrite Hen. cbn [negb].
  destruct (mapM_raise _ _ _ _ Hin He) as [x' ->]. now exists x'.
Qed.

Lemma Bitfield_raise (r : Register) (f : Field) (x : exn) :
  In f (_fields r) -> BitfieldField upper_camel f = Raise x ->
  exists x', Bitfield upper_camel r = Raise x'.
Proof.
  intros Hin Hf. unfold Bitfield.
  destruct (mapM_raise _ _ _ _ Hin Hf) as [x' ->]. now exists x'.
Qed.

Lemma generate_peripherial_raise (p : Peripheral) (r : Register) (x : exn) :
  In r (registers p) -> has_bitfields r = true ->
  Bitfield upper_camel r = Raise x ->
  exists x', generate_peripherial upper_camel p = Raise x'.
Proof.
  intros Hin Hb Hr.
  unfold generate_peripherial, generate_bitfields_macro, BitfieldsMacro.
  destruct (generate_peripheral_struct p) as [s|x0]; cbn [bind];
    [|now exists x0].
  assert (Hf : In r (filter has_bitfields (registers p)))
    by (apply filter_In; now split).
  destruct (mapM_raise _ _ _ _ Hf Hr) as [x' ->]. now exists x'.
Qed.

Lemma generate_raise (ps : list Peripheral) (p : Peripheral) (x : exn) :
  In p ps -> generate_peripherial upper_camel p = Raise x ->
  exists x', generate upper_camel ps = Raise x'.
Proof.
  intros Hin Hp. unfold generate.
  destruct (mapM_raise _ _ _ _ Hin Hp) as [x' ->]. now exists x'.
Qed.

(** Every enumerated value whose description and name both give an unusable
    identifier, once it is rendered (it is kept for an enumerated field of a
    register with more than one field, in a selected peripheral), ends the
    call with the attribute error of its integer literal, whatever that
    literal is. *)
Lemma unusable_value_fails
    (dev : Device) (sel : list string)
    (p : Peripheral) (r : Register) (f : Field) (e : EnumeratedValue)
    (d n : string) :
  In p (parse sel dev) ->
  In r (registers p) -> has_bitfields r = true ->
  In f (_fields r) -> is_enumerated_type f = true ->
  In e (BitfieldField_enumerated_values f) ->
  upper_camel (digit_escaped (e_description e)) = Ok d ->
  upper_camel (digit_escaped (e_name e)) = Ok n ->
  ~ usable d -> ~ usable n ->
  BitfieldFieldEnum upper_camel e = Raise no_startswith
  /\ exists x, render upper_camel dev sel = Raise x.
Proof.
  intros Hp Hr Hb Hf Hen He Hd Hn Ud Un.
  assert (E : BitfieldFieldEnum upper_camel e = Raise no_startswith).
  { unfold BitfieldFieldEnum.
    now rewrite (enum_identifier_unusable upper_camel e d n Hd Hn Ud Un). }
  split; [exact E|].
  destruct (BitfieldField_raise f e _ Hen He E) as [x1 H1].
  destruct (Bitfield_raise r f _ Hf H1) as [x2 H2].
  destruct (generate_peripherial_raise p r _ Hr Hb H2) as [x3 H3].
  exact (generate_raise _ p _ Hp H3).
Qed.

End Failure.

(** ** Text modulo whitespace and comment lines *)

Lemma append_nil_r (s : string) : s ++ "" = s.
Proof. induction s; simpl; congruence. Qed.

Lemma all_chars_app (ok : ascii -> bool) (a b : string) :
  all_chars ok (a ++ b) = all_chars ok a && all_chars ok b.
Proof.
  induction a as [|c a IH]; simpl; [reflexivity|].
  now rewrite IH, andb_assoc.
Qed.

Lemma all_chars_impl (p q : ascii -> bool) (s : string) :
  (forall c, p c = true -> q c = true) ->
  all_chars p s = true -> all_chars q s = true.
Proof.
  intros I. induction s as [|c s IH]; simpl; auto.
  intros H. apply andb_prop in H. destruct H as [Hc Hs].
  now rewrite (I c Hc), IH.
Qed.

Lemma all_chars_take (ok : ascii -> bool) (n : nat) (s : string) :
  all_chars ok s = true -> all_chars ok (Py.take n s) = true.
Proof.
  revert s. induction n as [|n IH]; intros [|c s]; simpl; auto.
  intros H. apply andb_prop in H. destruct H as [-> H]. simpl. now apply IH.
Qed.

Lemma all_chars_lstrip (ok : ascii -> bool) (s : string) :
  all_chars ok s = true -> all_chars ok (Py.lstrip s) = true.
Proof.
  induction s as [|c s IH]; simpl; auto.
  intros H. destruct (Py.is_space c); [|exact H].
  apply andb_prop in H. now apply IH.
Qed.

Lemma all_chars_rstrip (ok : ascii -> bool) (s : string) :
  all_chars ok s = true -> all_chars ok (Py.rstrip s) = true.
Proof.
  induction s as [|c s IH]; simpl; auto.
  intros H. apply andb_prop in H. destruct H as [Hc Hs].
  specialize (IH Hs). destruct (Py.rstrip s) as [|c' r'].
  - destruct (Py.is_space c); simpl; [reflexivity | now rewrite Hc].
  - simpl in *. now rewrite Hc, IH.
Qed.

Lemma no_newline_strip_take (d : string) :
  no_newline d = true ->
  no_newline (Py.strip (Py.take COMMENT_MAX_LENGTH d)) = true.
Proof.
  intros H. unfold Py.strip.
  apply all_chars_rstrip, all_chars_lstrip, all_chars_take, H.
Qed.

Lemma string_of_uint_chars (d : Decimal.uint) :
  all_chars is_int_char (NilEmpty.string_of_uint d) = true.
Proof. induction d; simpl; auto. Qed.

Lemma str_int_chars (z : Z) :
  all_chars is_int_char (Py.str_int z) = true /\ Py.str_int z <> "".
Proof.
  unfold Py.str_int, NilZero.string_of_int, NilZero.string_of_uint.
  destruct (Z.to_int z) as [d|d]; destruct d; simpl; split;
    try discriminate; try reflexivity; apply string_of_uint_chars.
Qed.

Lemma int_char_plain (c : ascii) :
  is_int_char c = true ->
  negb (is_newline c) = true /\ negb (Py.is_space c) = true.
Proof.
  destruct c as [[|] [|] [|] [|] [|] [|] [|] [|]]; vm_compute;
    intros H; try discriminate H; split; reflexivity.
Qed.

Lemma str_int_plain (z : Z) :
  no_newline (Py.str_int z) = true /\ no_space (Py.str_int z) = true.
Proof.
  destruct (str_int_chars z) as [H _]. split.
  - apply (all_chars_impl is_int_char); [|exact H].
    intros c Hc. now apply int_char_plain.
  - apply (all_chars_impl is_int_char); [|exact H].
    intros c Hc. now apply int_char_plain.
Qed.

Lemma split_lines_app (a s : string) :
  no_newline a = true ->
  split_lines (a ++ s) = let (l, ls) := split_lines s in (a ++ l, ls).
Proof.
  induction a as [|c a IH]; simpl; intros H.
  - now destruct (split_lines s).
  - apply andb_prop in H. destruct H as [Hc Ha].
    rewrite (IH Ha). destruct (split_lines s) as [l ls].
    apply negb_true_iff in Hc. now rewrite Hc.
Qed.

Lemma split_words_app (a s : string) :
  no_space a = true ->
  split_words (a ++ s) = let (w, ws) := split_words s in (a ++ w, ws).
Proof.
  induction a as [|c a IH]; simpl; intros H.
  - now destruct (split_words s).
  - apply andb_prop in H. destruct H as [Hc Ha].
    rewrite (IH Ha). destruct (split_words s) as [l ls].
    apply negb_true_iff in Hc. now rewrite Hc.
Qed.

Lemma split_words_token (V : string) :
  no_space V = true -> split_words V = (V, []).
Proof.
  intros H. rewrite <- (append_nil_r V) at 1.
  rewrite split_words_app by assumption. cbn. now rewrite append_nil_r.
Qed.

Lemma cons_word_nonempty (w : string) (ws : list string) :
  w <> "" -> cons_word w ws = w :: ws.
Proof. destruct w; [congruence | reflexivity]. Qed.

Lemma split_lines_join (l : string) (ls : list string) :
  forallb no_newline (l :: ls) = true ->
  split_lines (Py.join NL (l :: ls)) = (l, ls).
Proof.
  revert l. induction ls as [|l' ls IH]; intros l H.
  - cbn [Py.join]. rewrite <- (append_nil_r l) at 1.
    cbn in H. rewrite andb_true_r in H.
    rewrite split_lines_app by assumption. cbn. now rewrite append_nil_r.
  - cbn [forallb] in H. apply andb_prop in H. destruct H as [Hl H].
    change (Py.join NL (l :: l' :: ls)) with (l ++ NL ++ Py.join NL (l' :: ls)).
    rewrite split_lines_app by assumption.
    change (NL ++ Py.join NL (l' :: ls))
      with (String (ascii_of_nat 10) (Py.join NL (l' :: ls))).
    cbn [split_lines]. rewrite (IH l' H).
    change (is_newline (ascii_of_nat 10)) with true. cbn iota.
    now rewrite append_nil_r.
Qed.

(** the words of lines without line breaks, joined by line breaks *)
Lemma code_words_join (l : string) (ls : list string) :
  forallb no_newline (l :: ls) = true ->
  code_words (Py.join NL (l :: ls)) = flat_map line_words (l :: ls).
Proof.
  intros H. unfold code_words, lines. now rewrite split_lines_join.
Qed.

Ltac eval_is_space :=
  repeat match goal with
  | |- context [Py.is_space ?c] =>
      let b := eval vm_compute in (Py.is_space c) in
      change (Py.is_space c) with b
  end.

Lemma line_words_comment (Y : string) : line_words ("/// " ++ Y) = [].
Proof. reflexivity. Qed.

Lemma line_words_field_comment (Y : string) :
  line_words ("    " ++ "/// " ++ Y) = [].
Proof. reflexivity. Qed.

Lemma line_words_fast (V : string) :
  no_space V = true ->
  line_words ("        Fast = " ++ V ++ ",") = ["Fast"; "="; V ++ ","].
Proof.
  intros H. unfold line_words.
  change (is_comment_line _) with false. cbn iota. unfold words.
  cbn [append split_words].
  rewrite (split_words_app V) by assumption.
  cbn [split_words]. eval_is_space. cbn [cons_word].
  now destruct V.
Qed.

Lemma line_words_slow (V : string) :
  no_space V = true -> V <> "" ->
  line_words ("        Slow = " ++ V) = ["Slow"; "="; V].
Proof.
  intros H N. unfold line_words.
  change (is_comment_line _) with false. cbn iota. unfold words.
  cbn [append split_words].
  rewrite (split_words_token V) by assumption.
  eval_is_space. cbn [cons_word].
  now rewrite cons_word_nonempty.
Qed.

Lemma member_words (Y : string) :
  no_newline Y = true ->
  code_words (("/// " ++ Y) ++ NL ++ "ctrl: ReadWrite<u32, CTRL::Register>,")
  = ["ctrl:"; "ReadWrite<u32,"; "CTRL::Register>,"].
Proof.
  intros H.
  change (("/// " ++ Y) ++ NL ++ "ctrl: ReadWrite<u32, CTRL::Register>,")
    with (Py.join NL ["/// " ++ Y; "ctrl: ReadWrite<u32, CTRL::Register>,"]).
  rewrite code_words_join.
  - cbn [flat_map]. now rewrite line_words_comment.
  - cbn [forallb]. unfold no_newline in *. rewrite all_chars_app, H.
    reflexivity.
Qed.

Lemma block_words (Y1 Y2 V1 V2 : string) :
  no_newline Y1 = true -> no_newline Y2 = true ->
  no_newline V1 = true -> no_newline V2 = true ->
  no_space V1 = true -> no_space V2 = true -> V2 <> "" ->
  code_words (NL ++ "CTRL [" ++ NL
              ++ "    " ++ ("/// " ++ Y1) ++ NL
              ++ "    EN OFFSET(0) NUMBITS(1) []," ++ NL
              ++ "    " ++ ("/// " ++ Y2) ++ NL
              ++ "    MODE OFFSET(1) NUMBITS(2) [" ++ NL
              ++ "        /// Fast" ++ NL
              ++ "        Fast = " ++ V1 ++ "," ++ NL
              ++ "        /// Slow" ++ NL
              ++ "        Slow = " ++ V2 ++ NL
              ++ "    ]" ++ NL
              ++ "]")
  = ["CTRL"; "["; "EN"; "OFFSET(0)"; "NUMBITS(1)"; "[],";
     "MODE"; "OFFSET(1)"; "NUMBITS(2)"; "[";
     "Fast"; "="; V1 ++ ","; "Slow"; "="; V2; "]"; "]"].
Proof.
  intros HY1 HY2 HV1 HV2 SV1 SV2 N2.
  transitivity (code_words (Py.join NL
    [""; "CTRL ["; "    " ++ "/// " ++ Y1; "    EN OFFSET(0) NUMBITS(1) [],";
     "    " ++ "/// " ++ Y2; "    MODE OFFSET(1) NUMBITS(2) [";
     "        /// Fast"; "        Fast = " ++ V1 ++ ",";
     "        /// Slow"; "        Slow = " ++ V2; "    ]"; "]"])).
  { f_equal. unfold NL. cbn [Py.join append].
    repeat (rewrite append_assoc; cbn [append]). reflexivity. }
  rewrite code_words_join.
  - cbn [flat_map].
    rewrite !line_words_field_comment, line_words_fast, line_words_slow
      by assumption.
    reflexivity.
  - cbn [forallb]. unfold no_newline in *. rewrite !all_chars_app.
    rewrite HY1, HY2, HV1, HV2. reflexivity.
Qed.

(** ** The register [CTRL] of the specification's example *)

Section CtrlExample.

Variable upper_camel : string -> result string.

(** C5 as amended: the struct member of [CTRL] is its comment line and
    [ctrl: ReadWrite<u32, CTRL::Register>,]: the reference bears the raw
    register name, the name of the block, not a title-cased one; the block
    is [CTRL [ EN OFFSET(0) NUMBITS(1) [], MODE OFFSET(1) NUMBITS(2)
    [ Fast = v1, Slow = v2 ] ]] with a comment line before each field and
    each variant; read modulo whitespace and comment lines these are the
    texts of the example whenever the descriptions hold no line break. *)
Theorem C5_ctrl_rendering
    (description en_description mode_description fast_name slow_name : string)
    (v1 v2 : Z) :
  upper_camel "Fast" = Ok "Fast" ->
  upper_camel "Slow" = Ok "Slow" ->
  let ctrl := ctrl_register description en_description mode_description
                fast_name slow_name v1 v2 in
  PeripheralStructField ctrl
  = Ok (comment description ++ NL ++ "ctrl: ReadWrite<u32, CTRL::Register>,")
  /\ Bitfield upper_camel ctrl
     = Ok (NL ++ "CTRL [" ++ NL
           ++ "    " ++ comment en_description ++ NL
           ++ "    EN OFFSET(0) NUMBITS(1) []," ++ NL
           ++ "    " ++ comment mode_description ++ NL
           ++ "    MODE OFFSET(1) NUMBITS(2) [" ++ NL
           ++ "        /// Fast" ++ NL
           ++ "        Fast = " ++ Py.str_int v1 ++ "," ++ NL
           ++ "        /// Slow" ++ NL
           ++ "        Slow = " ++ Py.str_int v2 ++ NL
           ++ "    ]" ++ NL
           ++ "]")
  /\ (forall member block,
        PeripheralStructField ctrl = Ok member ->
        Bitfield upper_camel ctrl = Ok block ->
        no_newline description = true ->
        no_newline en_description = true ->
        no_newline mode_description = true ->
        code_words member = ["ctrl:"; "ReadWrite<u32,"; "CTRL::Register>,"]
        /\ code_words block
           = ["CTRL"; "["; "EN"; "OFFSET(0)"; "NUMBITS(1)"; "[],";
              "MODE"; "OFFSET(1)"; "NUMBITS(2)"; "[";
              "Fast"; "="; Py.str_int v1 ++ ","; "Slow"; "="; Py.str_int v2;
              "]"; "]"]).
Proof.
  intros HF HS ctrl.
  assert (M : PeripheralStructField ctrl
              = Ok (comment description ++ NL
                    ++ "ctrl: ReadWrite<u32, CTRL::Register>,"))
    by reflexivity.
  assert (B : Bitfield upper_camel ctrl
     = Ok (NL ++ "CTRL [" ++ NL
           ++ "    " ++ comment en_description ++ NL
           ++ "    EN OFFSET(0) NUMBITS(1) []," ++ NL
           ++ "    " ++ comment mode_description ++ NL
           ++ "    MODE OFFSET(1) NUMBITS(2) [" ++ NL
           ++ "        /// Fast" ++ NL
           ++ "        Fast = " ++ Py.str_int v1 ++ "," ++ NL
           ++ "        /// Slow" ++ NL
           ++ "        Slow = " ++ Py.str_int v2 ++ NL
           ++ "    ]" ++ NL
           ++ "]")).
  { unfold Bitfield, ctrl, ctrl_register. cbn [_fields r_name mapM].
    rewrite BitfieldField_plain by reflexivity. cbn [bind].
    unfold BitfieldField. cbn [is_enumerated_type negb].
    change (BitfieldField_enumerated_values _)
      with [mkEnum fast_name "Fast" v1; mkEnum slow_name "Slow" v2].
    cbn [mapM]. unfold BitfieldFieldEnum, BitfieldFieldEnum_enum_identifier.
    cbn [first_usable e_description].
    rewrite !BitfieldFieldEnum_identifier_text.
    change (digit_escaped "Fast") with "Fast".
    change (digit_escaped "Slow") with "Slow".
    rewrite HF, HS.
    change (comment "Fast") with "/// Fast".
    change (comment "Slow") with "/// Slow".
    cbn -[comment Py.str_int]. f_equal.
    repeat (rewrite append_assoc; cbn -[comment Py.str_int]).
    reflexivity. }
  split; [exact M | split; [exact B|]].
  intros member block Hm Hb Nd Ne Nm.
  rewrite M in Hm. rewrite B in Hb.
  injection Hm as <-. injection Hb as <-.
  destruct (str_int_plain v1) as [L1 S1].
  destruct (str_int_plain v2) as [L2 S2].
  destruct (str_int_chars v2) as [_ E2].
  split.
  - apply member_words. now apply no_newline_strip_take.
  - unfold comment.
    apply block_words; try assumption; now apply no_newline_strip_take.
Qed.

End CtrlExample.

(** ** The code at concrete inputs *)

(** C3 refuted at a timer with a single one-field register: the container
    is in the output, empty. *)
Lemma C3_container_present_when_empty :
  (forall r, In r (registers timer) -> length (_fields r) <= 1)
  /\ generate_peripherial upper_camel_model timer
     = Ok ("/// Simple timer" ++ NL
           ++ "#[repr(C, packed)]" ++ NL
           ++ "struct TimerRegisters {" ++ NL
           ++ "/// Counter value" ++ NL
           ++ "count: ReadWrite<u32>," ++ NL
           ++ "}" ++ NL
           ++ "register_bitfields![u32," ++ NL
           ++ "];" ++ NL
           ++ "const TIMER_BASE: StaticRef<TimerRegisters> =" ++ NL
           ++ "    unsafe { StaticRef::new(0x    1000 as *const TimerRegisters) };"
           ++ NL).
Proof.
  split; [|reflexivity].
  intros r [<-|[]]. simpl. lia.
Qed.

Lemma C3_empty_container_emitted_witness :
  (forall r, In r (registers timer) -> length (_fields r) <= 1)
  /\ generate_peripherial upper_camel_model timer
     = (s <- PeripheralStruct timer ;;
        Ok (s ++ "register_bitfields![u32," ++ NL ++ "];"
            ++ PeripheralBaseDeclaration timer)).
Proof.
  assert (H : forall r, In r (registers timer) -> length (_fields r) <= 1).
  { intros r [<-|[]]. simpl. lia. }
  split; [exact H|].
  exact (C3_empty_container_emitted upper_camel_model timer H).
Defined.

Lemma C10_container_width_u32_witness :
  (forall r f, In r port_registers -> In f (_fields r) ->
               is_enumerated_type f = false)
  /\ exists blocks,
       BitfieldsMacro upper_camel_model port_registers
       = Ok ("register_bitfields![u32," ++ Py.join "," blocks ++ NL ++ "];").
Proof.
  assert (H : forall r f, In r port_registers -> In f (_fields r) ->
                          is_enumerated_type f = false).
  { intros r f [<-|[<-|[]]] [<-|[<-|[]]]; reflexivity. }
  split; [exact H|].
  exact (proj2 (proj2 (C10_container_width_u32 upper_camel_model port_registers)) H).
Defined.

(** C1 refuted: [GPIOX] is the name of no peripheral, and the call returns
    the prelude instead of failing. *)
Lemma C1_absent_name_gives_prelude :
  ~ In "GPIOX" (map p_name (peripherals soc))
  /\ render upper_camel_model soc ["GPIOX"]
     = Ok (NL ++ "use kernel::StaticRef;" ++ NL
           ++ "use kernel::common::regs::{self, ReadOnly, ReadWrite, WriteOnly};"
           ++ NL ++ "    ").
Proof.
  split; [|reflexivity].
  intros [H|[H|[]]]; discriminate.
Qed.

Lemma C1_missing_name_skipped_witness :
  In "GPIOX" ["GPIOX"; "UART1"]
  /\ ~ In "GPIOX" (map p_name (peripherals soc))
  /\ render upper_camel_model soc ["GPIOX"; "UART1"]
     = generate upper_camel_model [uart "UART1" 1073750016].
Proof.
  assert (Hin : In "GPIOX" ["GPIOX"; "UART1"]) by (now left).
  assert (Hout : ~ In "GPIOX" (map p_name (peripherals soc))).
  { intros [H|[H|[]]]; discriminate. }
  split; [exact Hin | split; [exact Hout|]].
  exact (proj1 (C1_missing_name_skipped upper_camel_model soc
                  ["GPIOX"; "UART1"] "GPIOX" Hin Hout)).
Defined.

Lemma C9_render_selection_witness :
  (forall p, In p (parse ["UART0"] soc) ->
             generate_peripherial upper_camel_model p = Ok (text_of p))
  /\ render upper_camel_model soc ["UART0"]
     = Ok (Includes ++ text_of (uart "UART0" 1073745920))
  /\ render upper_camel_model soc []
     = Ok (Includes ++ text_of (uart "UART0" 1073745920) ++ NL
           ++ text_of (uart "UART1" 1073750016)).
Proof.
  assert (H1 : forall p, In p (parse ["UART0"] soc) ->
                         generate_peripherial upper_camel_model p
                         = Ok (text_of p)).
  { intros p [<-|[]]. reflexivity. }
  assert (H2 : forall p, In p (parse [] soc) ->
                         generate_peripherial upper_camel_model p
                         = Ok (text_of p)).
  { intros p [<-|[<-|[]]]; reflexivity. }
  split; [exact H1 | split].
  - apply (proj2 (proj2 (C9_render_selection upper_camel_model soc ["UART0"]
                           text_of H1))).
    discriminate.
  - exact (proj1 (proj2 (C9_render_selection upper_camel_model soc []
                           text_of H2)) eq_refl).
Defined.

Lemma C7_first_occurrence_per_description_witness :
  BitfieldField_enumerated_values level_field
  = [mkEnum "ON" "on" 1; mkEnum "OFF" "off" 0]
  /\ is_enumerated_type level_field = true
  /\ exists enums,
       mapM (BitfieldFieldEnum upper_camel_model)
            (BitfieldField_enumerated_values level_field) = Ok enums
       /\ length enums = 2.
Proof.
  split; [reflexivity | split; [reflexivity|]].
  destruct (proj2 (proj2 (proj2 (proj2
              (C7_first_occurrence_per_description level_field))))
              upper_camel_model
              (match BitfieldField upper_camel_model level_field with
               | Ok t => t | Raise _ => EmptyString end)
              eq_refl eq_refl) as [enums [M [L _]]].
  exists enums. split; [exact M | exact L].
Defined.

(** C2, at a value whose description, name and literal all give an
    identifier of 80 or more characters: the third candidate is the integer
    itself, on which [startswith] does not exist, so rendering ends with an
    attribute error whose message names neither the peripheral, nor the
    register, nor the field; no explicit failure is raised.  (The loop
    alone, given the text of the literal, ends without a name.) *)
Theorem C2_unusable_value_attribute_error :
  upper_camel_model (digit_escaped (e_description unusable_value))
  = Ok (String "A" (repeat_char "a" 79))
  /\ upper_camel_model (digit_escaped (e_name unusable_value))
     = Ok (String "B" (repeat_char "b" 79))
  /\ upper_camel_model (digit_escaped (Py.str_int (e_value unusable_value)))
     = Ok ("_1" ++ repeat_char "0" 79)
  /\ String.length (String "A" (repeat_char "a" 79)) = 80
  /\ String.length (String "B" (repeat_char "b" 79)) = 80
  /\ String.length ("_1" ++ repeat_char "0" 79) = 81
  /\ BitfieldFieldEnum_identifier upper_camel_model
       (VInt (e_value unusable_value))
     = Raise no_startswith
  /\ BitfieldFieldEnum upper_camel_model unusable_value = Raise no_startswith
  /\ render upper_camel_model unusable_device [] = Raise no_startswith
  /\ names no_startswith "UART0" = false
  /\ names no_startswith "CTRL" = false
  /\ names no_startswith "MODE" = false
  /\ first_usable upper_camel_model
       [VStr (e_description unusable_value); VStr (e_name unusable_value);
        VStr (Py.str_int (e_value unusable_value))]
     = Ok None.
Proof. repeat split. Qed.

Lemma unusable_value_fails_witness :
  BitfieldFieldEnum upper_camel_model long_value = Raise no_startswith
  /\ exists x, render upper_camel_model long_device [] = Raise x.
Proof.
  apply (unusable_value_fails upper_camel_model long_device []
           long_peripheral long_register long_field long_value
           (String "A" (repeat_char "a" 79))
           (String "B" (repeat_char "b" 79))).
  - now left.
  - now left.
  - reflexivity.
  - right. now left.
  - reflexivity.
  - now left.
  - reflexivity.
  - reflexivity.
  - unfold usable. simpl. lia.
  - unfold usable. simpl. lia.
Defined.

(** C5 refuted: the member line of [CTRL] refers to [CTRL::Register]; the
    text [Ctrl::Register] does not occur in it, and modulo whitespace and
    comment lines it is not the member of the example. *)
Lemma C5_reference_not_title_cased :
  PeripheralStructField
    (ctrl_register "Control" "Enable" "Mode" "FAST" "SLOW" 0 1)
  = Ok ("/// Control" ++ NL ++ "ctrl: ReadWrite<u32, CTRL::Register>,")
  /\ Py.contains "Ctrl::Register"
       ("/// Control" ++ NL ++ "ctrl: ReadWrite<u32, CTRL::Register>,")
     = false
  /\ code_words
       ("/// Control" ++ NL ++ "ctrl: ReadWrite<u32, CTRL::Register>,")
     <> code_words "ctrl: ReadWrite<u32, Ctrl::Register>"
  /\ code_words
       ("/// Control" ++ NL ++ "ctrl: ReadWrite<u32, CTRL::Register>,")
     <> code_words "ctrl: ReadWrite<u32, Ctrl::Register>,".
Proof. repeat split; discriminate. Qed.

Lemma C5_ctrl_rendering_witness :
  upper_camel_model "Fast" = Ok "Fast"
  /\ upper_camel_model "Slow" = Ok "Slow"
  /\ Bitfield upper_camel_model
       (ctrl_register "Control" "Enable" "Mode" "FAST" "SLOW" 0 1)
     = Ok (NL ++ "CTRL [" ++ NL
           ++ "    /// Enable" ++ NL
           ++ "    EN OFFSET(0) NUMBITS(1) []," ++ NL
           ++ "    /// Mode" ++ NL
           ++ "    MODE OFFSET(1) NUMBITS(2) [" ++ NL
           ++ "        /// Fast" ++ NL
           ++ "        Fast = 0," ++ NL
           ++ "        /// Slow" ++ NL
           ++ "        Slow = 1" ++ NL
           ++ "    ]" ++ NL
           ++ "]")
  /\ code_words (NL ++ "CTRL [" ++ NL
                 ++ "    /// Enable" ++ NL
                 ++ "    EN OFFSET(0) NUMBITS(1) []," ++ NL
                 ++ "    /// Mode" ++ NL
                 ++ "    MODE OFFSET(1) NUMBITS(2) [" ++ NL
                 ++ "        /// Fast" ++ NL
                 ++ "        Fast = 0," ++ NL
                 ++ "        /// Slow" ++ NL
                 ++ "        Slow = 1" ++ NL
                 ++ "    ]" ++ NL
                 ++ "]")
     = code_words
         "CTRL [ EN OFFSET(0) NUMBITS(1) [], MODE OFFSET(1) NUMBITS(2) [ Fast = 0, Slow = 1 ] ]".
Proof.
  split; [reflexivity | split; [reflexivity|]].
  destruct (C5_ctrl_rendering upper_camel_model
              "Control" "Enable" "Mode" "FAST" "SLOW" 0 1
              eq_refl eq_refl) as [M [B W]].
  split; [exact B|].
  exact (proj2 (W _ _ M B eq_refl eq_refl eq_refl)).
Defined.



(** ** Comments *)

Lemma length_append (a b : string) :
  String.length (a ++ b) = String.length a + String.length b.
Proof. induction a as [|c a IH]; simpl; [reflexivity | now rewrite IH]. Qed.

Lemma length_take (n : nat) (s : string) :
  String.length (Py.take n s) <= n.
Proof.
  revert s. induction n as [|n IH]; intros [|c s]; simpl; try lia.
  specialize (IH s). lia.
Qed.

Lemma length_lstrip (s : string) :
  String.length (Py.lstrip s) <= String.length s.
Proof.
  induction s as [|c s IH]; simpl; [lia|].
  destruct (Py.is_space c); simpl; lia.
Qed.

Lemma length_rstrip (s : string) :
  String.length (Py.rstrip s) <= String.length s.
Proof.
  induction s as [|c s IH]; simpl; [lia|].
  destruct (Py.rstrip s); [destruct (Py.is_space c)|]; simpl in *; lia.
Qed.

Lemma lstrip_head (s : string) (c : ascii) (r : string) :
  Py.lstrip s = String c r -> Py.is_space c = false.
Proof.
  induction s as [|x s IH]; simpl; [discriminate|].
  destruct (Py.is_space x) eqn:E; [exact IH|].
  intros H. inversion H; subst. exact E.
Qed.

Lemma rstrip_head (s : string) (c : ascii) (r : string) :
  Py.rstrip s = String c r -> exists s', s = String c s'.
Proof.
  destruct s as [|x s]; simpl; [discriminate|].
  destruct (Py.rstrip s); [destruct (Py.is_space x)|];
    intros H; inversion H; subst; now eexists.
Qed.

Lemma rstrip_last (s r : string) (c : ascii) :
  Py.rstrip s = r ++ String c "" -> Py.is_space c = false.
Proof.
  revert r. induction s as [|x s IH]; intros r; simpl.
  - destruct r; discriminate.
  - destruct (Py.rstrip s) as [|y t] eqn:E.
    + destruct (Py.is_space x) eqn:Ex.
      * destruct r; discriminate.
      * destruct r as [|z r]; simpl; intros H; inversion H; subst.
        -- exact Ex.
        -- destruct r; discriminate.
    + destruct r as [|z r]; simpl; intros H; inversion H; subst.
      apply (IH r). assumption.
Qed.

(** X1: a comment is [/// ] followed by at most [COMMENT_MAX_LENGTH]
    characters of the description. *)
Theorem comment_length (text : string) :
  exists body,
    comment text = "/// " ++ body
    /\ String.length body <= COMMENT_MAX_LENGTH
    /\ String.length body <= String.length text
    /\ String.length (comment text) <= 84.
Proof.
  exists (Py.strip (Py.take COMMENT_MAX_LENGTH text)).
  assert (L : String.length (Py.strip (Py.take COMMENT_MAX_LENGTH text))
              <= String.length (Py.take COMMENT_MAX_LENGTH text)).
  { unfold Py.strip. etransitivity; [apply length_rstrip | apply length_lstrip]. }
  assert (T := length_take COMMENT_MAX_LENGTH text).
  assert (T' : String.length (Py.take COMMENT_MAX_LENGTH text)
               <= String.length text).
  { clear. generalize COMMENT_MAX_LENGTH. intros n. revert text.
    induction n as [|n IH]; intros [|c s]; simpl; try lia.
    specialize (IH s). lia. }
  unfold COMMENT_MAX_LENGTH in *.
  repeat split; try lia.
  unfold comment. rewrite length_append.
  change (String.length "/// ") with 4. unfold COMMENT_MAX_LENGTH. lia.
Qed.

(** X2: the text of a comment after [/// ] neither begins nor ends with a
    whitespace character. *)
Theorem comment_body_stripped (text : string) :
  let body := Py.strip (Py.take COMMENT_MAX_LENGTH text) in
  comment text = "/// " ++ body
  /\ (forall c r, body = String c r -> Py.is_space c = false)
  /\ (forall r c, body = r ++ String c "" -> Py.is_space c = false).
Proof.
  intros body. split; [reflexivity | split].
  - intros c r H. unfold body, Py.strip in H.
    destruct (rstrip_head _ _ _ H) as [s' Hs].
    exact (lstrip_head _ _ _ Hs).
  - intros r c H. unfold body, Py.strip in H.
    exact (rstrip_last _ _ _ H).
Qed.

Lemma lstrip_blank (s : string) :
  is_blank_text s = true -> Py.lstrip s = "".
Proof.
  induction s as [|c s IH]; simpl; [reflexivity|].
  intros H. apply andb_prop in H. destruct H as [-> H]. now apply IH.
Qed.

(** X3: the description is cut to its first [COMMENT_MAX_LENGTH] characters
    before it is stripped: when these are all whitespace (or there are
    none), the comment is [/// ] alone, whatever follows them. *)
Theorem comment_of_blank_prefix (text : string) :
  is_blank_text (Py.take COMMENT_MAX_LENGTH text) = true ->
  comment text = "/// ".
Proof.
  intros H. unfold comment, Py.strip. now rewrite (lstrip_blank _ H).
Qed.

(** X4: a description without a line break gives a comment of one line. *)
Theorem comment_single_line (text : string) :
  no_newline text = true -> no_newline (comment text) = true.
Proof.
  intros H. unfold comment, no_newline. rewrite all_chars_app.
  apply andb_true_intro. split; [reflexivity|].
  now apply no_newline_strip_take.
Qed.

(** ** Access modes and the order of failures *)

Lemma getitem_spec (m : list (string * string)) (key : string) :
  (str_in key (map fst m) = true ->
   exists v, In (key, v) m /\ getitem m key = Ok v)
  /\ (str_in key (map fst m) = false -> getitem m key = Raise (KeyError key)).
Proof.
  induction m as [|[k v] m [IH1 IH2]]; simpl.
  - split; [discriminate | reflexivity].
  - rewrite (String.eqb_sym key k).
    destruct (String.eqb_spec k key) as [->|Hne]; simpl.
    + split; [|discriminate]. intros _. exists v. split; [now left | reflexivity].
    + split.
      * intros H. destruct (IH1 H) as [v' [Hin Hg]].
        exists v'. split; [now right | assumption].
      * exact IH2.
Qed.

Lemma mapM_find {A B} (f : A -> result B) (bad : A -> bool) (err : A -> exn)
    (l : list A) :
  (forall a, In a l -> bad a = true -> f a = Raise (err a)) ->
  (forall a, In a l -> bad a = false -> exists b, f a = Ok b) ->
  match find bad l with
  | Some a => mapM f l = Raise (err a)
  | None => exists bs, mapM f l = Ok bs
  end.
Proof.
  induction l as [|a r IH]; intros Hbad Hok; simpl.
  - now exists [].
  - destruct (bad a) eqn:E.
    + now rewrite (Hbad a (or_introl eq_refl) E).
    + destruct (Hok a (or_introl eq_refl) E) as [b ->]. simpl.
      assert (IH' := IH (fun x Hx => Hbad x (or_intror Hx))
                        (fun x Hx => Hok x (or_intror Hx))).
      destruct (find bad r) as [x|].
      * now rewrite IH'.
      * destruct IH' as [bs ->]. now exists (b :: bs).
Qed.

Lemma mapM_first_raise {A B} (f : A -> result B)
    (pre : list A) (a : A) (post : list A) (e : exn) :
  (forall x, In x pre -> exists b, f x = Ok b) ->
  f a = Raise e ->
  mapM f (pre ++ a :: post) = Raise e.
Proof.
  induction pre as [|x pre IH]; intros Hpre Ha; simpl.
  - now rewrite Ha.
  - destruct (Hpre x (or_introl eq_refl)) as [b ->]. simpl.
    rewrite IH; [reflexivity | | assumption].
    intros y Hy. apply Hpre. now right.
Qed.

Lemma struct_field_by_access (r : Register) :
  (known_access r = true ->
   exists mode,
     In (_access r, mode) mode_map
     /\ PeripheralStructField r
        = Ok (comment (r_description r) ++ NL
              ++ PeripheralStructField_identifier (r_name r) ++ ": " ++ mode
              ++ "<u" ++ Py.str_int (_size r)
              ++ PeripheralStructField_definition r ++ ">,"))
  /\ (known_access r = false ->
      PeripheralStructField r = Raise (KeyError (_access r))).
Proof.
  destruct (getitem_spec mode_map (_access r)) as [G1 G2].
  unfold known_access, PeripheralStructField. split; intros H.
  - destruct (G1 H) as [mode [Hin ->]]. exists mode. now split.
  - now rewrite (G2 H).
Qed.

Lemma struct_fields_by_access (regs : list Register) :
  match find (fun r => negb (known_access r)) regs with
  | Some r => mapM PeripheralStructField regs = Raise (KeyError (_access r))
  | None => exists fields, mapM PeripheralStructField regs = Ok fields
  end.
Proof.
  apply (mapM_find PeripheralStructField (fun r => negb (known_access r))
           (fun r => KeyError (_access r))).
  - intros a _ Ha. apply negb_true_iff in Ha.
    now apply struct_field_by_access.
  - intros a _ Ha. apply negb_false_iff in Ha.
    destruct (proj1 (struct_field_by_access a) Ha) as [m [_ ->]].
    now eexists.
Qed.

(** X5: a struct member is rendered exactly for the access modes
    [read-only], [read-write] and [write-only]; any other access text raises
    [KeyError] with that text, whatever the rest of the register. *)
Theorem PeripheralStructField_access (r : Register) :
  (known_access r = true ->
   exists mode,
     In (_access r, mode) mode_map
     /\ PeripheralStructField r
        = Ok (comment (r_description r) ++ NL
              ++ PeripheralStructField_identifier (r_name r) ++ ": " ++ mode
              ++ "<u" ++ Py.str_int (_size r)
              ++ PeripheralStructField_definition r ++ ">,"))
  /\ (known_access r = false ->
      PeripheralStructField r = Raise (KeyError (_access r))).
Proof.
  destruct (getitem_spec mode_map (_access r)) as [G1 G2].
  unfold known_access, PeripheralStructField. split; intros H.
  - destruct (G1 H) as [mode [Hin E]]. rewrite E.
    exists mode. split; [exact Hin | reflexivity].
  - rewrite (G2 H). reflexivity.
Qed.

(** X6: the struct of a peripheral fails with the [KeyError] of its first
    register of unknown access mode; without such a register it is rendered,
    with one member per register. *)
Theorem PeripheralStruct_first_unknown_access (p : Peripheral) :
  match find (fun r => negb (known_access r)) (registers p) with
  | Some r => PeripheralStruct p = Raise (KeyError (_access r))
  | None =>
      exists fields,
        mapM PeripheralStructField (registers p) = Ok fields
        /\ length fields = length (registers p)
        /\ PeripheralStruct p
           = Ok (comment (p_description p) ++ NL
                 ++ "#[repr(C, packed)]" ++ NL
                 ++ "struct " ++ Py.title (p_name p) ++ "Registers {" ++ NL
                 ++ Py.join NL fields ++ NL ++ "}" ++ NL)
  end.
Proof.
  assert (M := struct_fields_by_access (registers p)).
  unfold PeripheralStruct.
  destruct (find (fun r => negb (known_access r)) (registers p)) as [r|].
  - now rewrite M.
  - destruct M as [fields Hf].
    exists fields. rewrite Hf. split; [reflexivity|]. split; [|reflexivity].
    now apply mapM_length with (f := PeripheralStructField).
Qed.

(** X7: the struct is rendered before the bit fields: a peripheral with a
    register of unknown access mode fails with that register's [KeyError],
    whatever its enumerated values and whatever [upper_camel] does. *)
Theorem generate_peripherial_KeyError_first
    (upper_camel : string -> result string) (p : Peripheral) (r : Register) :
  find (fun r => negb (known_access r)) (registers p) = Some r ->
  generate_peripherial upper_camel p = Raise (KeyError (_access r)).
Proof.
  intros H. assert (M := struct_fields_by_access (registers p)).
  rewrite H in M.
  unfold generate_peripherial, generate_peripheral_struct, PeripheralStruct.
  now rewrite M.
Qed.

(** X8: the peripherals are rendered in order and the first failure ends the
    call: after peripherals that render, a peripheral that fails gives its
    error to [generate], whatever follows it. *)
Theorem generate_first_failure
    (upper_camel : string -> result string)
    (pre : list Peripheral) (p : Peripheral) (post : list Peripheral)
    (e : exn) :
  (forall q, In q pre -> exists t, generate_peripherial upper_camel q = Ok t) ->
  generate_peripherial upper_camel p = Raise e ->
  generate upper_camel (pre ++ p :: post) = Raise e.
Proof.
  intros Hpre Hp. unfold generate.
  now rewrite (mapM_first_raise _ pre p post e Hpre Hp).
Qed.

(** ** Selection *)

(** X9: a peripheral is selected exactly when it is in the device and
    either no name was requested or its name is among those requested. *)
Theorem parse_membership (sel : list string) (dev : Device) (p : Peripheral) :
  In p (parse sel dev)
  <-> In p (peripherals dev) /\ (sel = [] \/ In (p_name p) sel).
Proof.
  rewrite parse_selected. destruct sel as [|x r]; unfold selected.
  - split; [intros H; split; [assumption | now left] | tauto].
  - rewrite filter_In. cbv beta. rewrite str_in_In. split.
    + intros [H1 H2]. split; [assumption | now right].
    + intros [H1 [H2|H2]]; [discriminate | now split].
Qed.

(** X10: only which names are requested matters, not their order nor how
    often each is given. *)
Theorem parse_selection_as_set (sel sel' : list string) (dev : Device) :
  (forall x, In x sel <-> In x sel') ->
  parse sel dev = parse sel' dev.
Proof.
  intros H. rewrite !parse_selected.
  destruct sel as [|x r]; destruct sel' as [|x' r'].
  - reflexivity.
  - exfalso. apply (proj2 (H x')). now left.
  - exfalso. apply (proj1 (H x)). now left.
  - unfold selected. apply filter_ext. intros p.
    destruct (str_in (p_name p) (x :: r)) eqn:E.
    + symmetry. apply str_in_In. apply H. now apply str_in_In.
    + symmetry. apply str_in_false. intros Hin. apply H in Hin.
      apply str_in_In in Hin. congruence.
Qed.

(** ** The name of a variant *)

Section VariantName.

Variable upper_camel : string -> result string.

Lemma usable_truthy (i : string) :
  usable i ->
  (if (String.length i <? 80)%nat then Some i else None) = Some i
  /\ truthy (Some i) = true.
Proof.
  intros [H1 H2]. destruct (Nat.ltb_spec (String.length i) 80); [|lia].
  split; [reflexivity|]. destruct i; [simpl in H1; lia | reflexivity].
Qed.

(** X11: the description has priority: when it gives a usable identifier
    this is the variant name, whatever the name of the value is. *)
Theorem variant_named_by_description (e : EnumeratedValue) (i : string) :
  upper_camel (digit_escaped (e_description e)) = Ok i ->
  usable i ->
  BitfieldFieldEnum upper_camel e
  = Ok ("        " ++ comment (e_description e) ++ NL
        ++ "        " ++ i ++ " = " ++ Py.str_int (e_value e)).
Proof.
  intros Hd U. destruct (usable_truthy i U) as [S T].
  unfold BitfieldFieldEnum, BitfieldFieldEnum_enum_identifier.
  cbn [first_usable]. rewrite BitfieldFieldEnum_identifier_text, Hd.
  cbn [bind]. rewrite S, T. reflexivity.
Qed.

(** X12: when the identifier of the description is empty or too long, the
    name of the value is tried next, and names the variant if its identifier
    is usable. *)
Theorem variant_named_by_name (e : EnumeratedValue) (d n : string) :
  upper_camel (digit_escaped (e_description e)) = Ok d ->
  ~ usable d ->
  upper_camel (digit_escaped (e_name e)) = Ok n ->
  usable n ->
  BitfieldFieldEnum upper_camel e
  = Ok ("        " ++ comment (e_description e) ++ NL
        ++ "        " ++ n ++ " = " ++ Py.str_int (e_value e)).
Proof.
  intros Hd Ud Hn Un. destruct (usable_truthy n Un) as [S T].
  rewrite <- truthy_usable in Ud. apply not_true_is_false in Ud.
  unfold BitfieldFieldEnum, BitfieldFieldEnum_enum_identifier.
  cbn [first_usable]. rewrite !BitfieldFieldEnum_identifier_text, Hd, Hn.
  cbn [bind]. rewrite Ud, S, T. reflexivity.
Qed.

(** X13: an exception of [upper_camel] is not caught: raised on the
    description it ends the rendering of the value even when the name would
    give a usable identifier; raised on the name, after an unusable
    description, likewise. *)
Theorem variant_exception_escapes (e : EnumeratedValue) (x : exn) :
  (upper_camel (digit_escaped (e_description e)) = Raise x ->
   BitfieldFieldEnum upper_camel e = Raise x)
  /\ (forall d,
        upper_camel (digit_escaped (e_description e)) = Ok d ->
        ~ usable d ->
        upper_camel (digit_escaped (e_name e)) = Raise x ->
        BitfieldFieldEnum upper_camel e = Raise x).
Proof.
  unfold BitfieldFieldEnum, BitfieldFieldEnum_enum_identifier.
  cbn [first_usable]. rewrite !BitfieldFieldEnum_identifier_text. split.
  - intros ->. reflexivity.
  - intros d Hd Ud Hn. rewrite Hd, Hn. cbn [bind].
    rewrite <- truthy_usable in Ud. apply not_true_is_false in Ud.
    rewrite Ud. reflexivity.
Qed.

End VariantName.

(** ** Values with distinct descriptions *)

Lemma first_occurrences_distinct (seen : list string) (l : list EnumeratedValue) :
  NoDup (map e_description l) ->
  (forall v, In v l -> ~ In (e_description v) seen) ->
  first_occurrences seen l = l.
Proof.
  revert seen. induction l as [|v r IH]; intros seen N D; simpl.
  - reflexivity.
  - assert (E : str_in (e_description v) seen = false).
    { apply str_in_false. apply D. now left. }
    rewrite E. f_equal. inversion N as [|? ? Hv Nr]; subst.
    apply IH; [assumption|].
    intros w Hw Hin. apply in_app_or in Hin. destruct Hin as [Hin|[Hin|[]]].
    + apply (D w); [now right | assumption].
    + apply Hv. rewrite Hin. now apply in_map.
Qed.

(** X14: values whose descriptions are pairwise distinct are all kept, in
    their order; and filtering the kept values again keeps them all. *)
Theorem enumerated_values_distinct (f : Field) :
  (NoDup (map e_description (f_enumerated_values f)) ->
   BitfieldField_enumerated_values f = f_enumerated_values f)
  /\ BitfieldField_enumerated_values
       (mkField (f_name f) (f_description f) (bit_offset f) (bit_width f)
                (is_enumerated_type f) (BitfieldField_enumerated_values f))
     = BitfieldField_enumerated_values f.
Proof.
  assert (G : forall g, NoDup (map e_description (f_enumerated_values g)) ->
                        BitfieldField_enumerated_values g
                        = f_enumerated_values g).
  { intros g N. rewrite enumerated_values_first_occurrences.
    apply first_occurrences_distinct; [assumption | intros v _ []]. }
  split; [apply G|].
  rewrite G; [reflexivity|]. cbn [f_enumerated_values].
  rewrite enumerated_values_first_occurrences.
  apply first_occurrences_NoDup.
Qed.

(** ** Bitfield blocks and the references to them *)

Lemma Forall2_In_l {A B} (R : A -> B -> Prop) (l : list A) (bs : list B) (a : A) :
  Forall2 R l bs -> In a l -> exists b, In b bs /\ R a b.
Proof.
  induction 1 as [|x y l bs Hxy _ IH]; intros Hin; [contradiction|].
  destruct Hin as [->|Hin].
  - exists y. split; [now left | assumption].
  - destruct (IH Hin) as [b [Hb Hr]]. exists b. split; [now right | assumption].
Qed.

Lemma Bitfield_Ok (upper_camel : string -> result string)
    (r : Register) (b : string) :
  Bitfield upper_camel r = Ok b ->
  exists fields,
    length fields = length (_fields r)
    /\ b = NL ++ r_name r ++ " [" ++ NL
           ++ Py.join ("," ++ NL) fields ++ NL ++ "]".
Proof.
  unfold Bitfield.
  destruct (mapM (BitfieldField upper_camel) (_fields r)) as [fields|x] eqn:M;
    cbn [bind]; [|discriminate].
  intros H. exists fields. split.
  - now apply mapM_length with (f := BitfieldField upper_camel).
  - now inversion H.
Qed.

(** X15: a rendered peripheral holds one bitfield block per register with
    more than one field, in the registers' order, each under the raw name of
    its register; so the reference [NAME::Register] in the member line of
    such a register names a block of the container. *)
Theorem blocks_of_multi_field_registers
    (upper_camel : string -> result string) (p : Peripheral) (out : string) :
  generate_peripherial upper_camel p = Ok out ->
  exists s blocks,
    PeripheralStruct p = Ok s
    /\ out = s ++ "register_bitfields![u32," ++ Py.join "," blocks ++ NL ++ "];"
             ++ PeripheralBaseDeclaration p
    /\ Forall2
         (fun r b =>
            exists fields,
              length fields = length (_fields r)
              /\ b = NL ++ r_name r ++ " [" ++ NL
                     ++ Py.join ("," ++ NL) fields ++ NL ++ "]")
         (filter has_bitfields (registers p)) blocks
    /\ (forall r, In r (registers p) -> has_bitfields r = true ->
          PeripheralStructField_definition r = ", " ++ r_name r ++ "::Register"
          /\ exists fields,
               In (NL ++ r_name r ++ " [" ++ NL
                   ++ Py.join ("," ++ NL) fields ++ NL ++ "]") blocks).
Proof.
  unfold generate_peripherial, generate_peripheral_struct,
    generate_bitfields_macro, BitfieldsMacro.
  destruct (PeripheralStruct p) as [s|x]; cbn [bind]; [|discriminate].
  destruct (mapM (Bitfield upper_camel) (filter has_bitfields (registers p)))
    as [blocks|x] eqn:M; cbn [bind]; [|discriminate].
  intros H. exists s, blocks.
  assert (F : Forall2
         (fun r b =>
            exists fields,
              length fields = length (_fields r)
              /\ b = NL ++ r_name r ++ " [" ++ NL
                     ++ Py.join ("," ++ NL) fields ++ NL ++ "]")
         (filter has_bitfields (registers p)) blocks).
  { apply mapM_Forall2 in M. revert M. apply Forall2_impl.
    intros r b. apply Bitfield_Ok. }
  split; [reflexivity|]. split; [|split; [exact F|]].
  { injection H as <-. f_equal. change (Py.str_int 32) with "32".
    cbn [append]. repeat (rewrite append_assoc; cbn [append]). reflexivity. }
  intros r Hr Hb. split.
  - apply PeripheralStructField_definition_spec.
    unfold has_bitfields in Hb. apply Nat.ltb_lt in Hb. lia.
  - assert (Hin : In r (filter has_bitfields (registers p)))
      by (apply filter_In; now split).
    destruct (Forall2_In_l _ _ _ _ F Hin) as [b [Hbin [fields [_ ->]]]].
    now exists fields.
Qed.

(** X16: an enumerated field without values is rendered with an opening
    bracket, an empty line and a closing bracket, not as the [[]] of a field
    that is not enumerated. *)
Theorem enumerated_field_without_values
    (upper_camel : string -> result string) (f : Field) :
  is_enumerated_type f = true ->
  f_enumerated_values f = [] ->
  BitfieldField upper_camel f
  = Ok ("    " ++ comment (f_description f) ++ NL
        ++ "    " ++ f_name f
        ++ " OFFSET(" ++ Py.str_int (bit_offset f)
        ++ ") NUMBITS(" ++ Py.str_int (bit_width f) ++ ") "
        ++ "[" ++ NL ++ NL ++ "    ]").
Proof.
  intros He Hv. unfold BitfieldField, BitfieldField_enumerated_values.
  rewrite He, Hv. reflexivity.
Qed.

(** ** Member names *)

Lemma to_lower_facts (c : ascii) :
  Py.is_upper (Py.to_lower c) = false
  /\ Py.to_lower (Py.to_lower c) = Py.to_lower c.
Proof.
  destruct c as [[|] [|] [|] [|] [|] [|] [|] [|]]; split; reflexivity.
Qed.

Lemma lower_facts (s : string) :
  all_chars (fun c => negb (Py.is_upper c)) (Py.lower s) = true
  /\ Py.lower (Py.lower s) = Py.lower s.
Proof.
  unfold Py.lower.
  induction s as [|c s [IH1 IH2]]; cbn [Py.map_string all_chars];
    [now split|].
  destruct (to_lower_facts c) as [U L]. rewrite U, L, IH1, IH2.
  now split.
Qed.

(** X17: the name of a struct member holds no upper-case letter, and
    deriving a member name from a member name changes nothing. *)
Theorem member_name_lower_case (name : string) :
  all_chars (fun c => negb (Py.is_upper c))
            (PeripheralStructField_identifier name) = true
  /\ PeripheralStructField_identifier (PeripheralStructField_identifier name)
     = PeripheralStructField_identifier name.
Proof.
  destruct (lower_facts name) as [U L].
  destruct (PeripheralStructField_identifier_spec name) as [E _].
  rewrite E.
  destruct (String.eqb_spec (Py.lower name) "mod") as [Hm|Hm].
  - split; reflexivity.
  - split; [exact U|].
    destruct (PeripheralStructField_identifier_spec (Py.lower name)) as [E' _].
    rewrite E', L. apply String.eqb_neq in Hm. now rewrite Hm.
Qed.

(** ** Hexadecimal addresses *)

Lemma size_nat_bound (p : positive) :
  (N.pos p < 2 ^ N.of_nat (Pos.size_nat p))%N.
Proof.
  induction p as [p IH|p IH|]; cbn [Pos.size_nat];
    rewrite ?Nat2N.inj_succ, ?N.pow_succ_r'; lia.
Qed.

Lemma hex_digit_value_digit (d : N) :
  (d < 16)%N -> hex_digit_value (Py.hex_digit d) = Some (Z.of_N d).
Proof.
  intros H.
  destruct d as [|p]; [reflexivity|].
  do 4 (destruct p as [p|p|]; try reflexivity; try lia).
Qed.

Lemma hex_pos_value (fuel : nat) :
  forall (p : positive) (acc : string),
    (N.pos p < 2 ^ N.of_nat fuel)%N ->
    hex_value_from 0 (Py.hex_pos p fuel acc)
    = hex_value_from (Z.pos p) acc
    /\ Py.hex_pos p fuel acc <> "".
Proof.
  induction fuel as [|fuel IH]; intros p acc H.
  - simpl in H. lia.
  - cbn [Py.hex_pos].
    assert (Hd : (N.pos p mod 16 < 16)%N) by (apply N.mod_lt; lia).
    assert (Hp : Z.pos p = (16 * Z.of_N (N.pos p / 16)
                            + Z.of_N (N.pos p mod 16))%Z).
    { rewrite <- N2Z.inj_mul with (n := 16%N), <- N2Z.inj_add.
      rewrite <- N.div_mod by lia. reflexivity. }
    destruct (N.pos p / 16)%N as [|q] eqn:Q.
    + split; [|discriminate]. cbn [hex_value_from].
      rewrite (hex_digit_value_digit _ Hd), Hp. reflexivity.
    + assert (Hq : (N.pos q < 2 ^ N.of_nat fuel)%N).
      { rewrite <- Q. apply N.Div0.div_lt_upper_bound.
        rewrite Nat2N.inj_succ, N.pow_succ_r' in H. lia. }
      destruct (IH q (String (Py.hex_digit (N.pos p mod 16)) acc) Hq)
        as [V NE].
      split; [|exact NE]. rewrite V. cbn [hex_value_from].
      rewrite (hex_digit_value_digit _ Hd), Hp. reflexivity.
Qed.

Lemma hex_pos_long (fuel : nat) :
  forall (p : positive) (acc : string) (k : nat),
    (N.pos p < 2 ^ N.of_nat fuel)%N ->
    (16 ^ N.of_nat k <= N.pos p)%N ->
    k + 1 + String.length acc <= String.length (Py.hex_pos p fuel acc).
Proof.
  induction fuel as [|fuel IH]; intros p acc k H L.
  - simpl in H. lia.
  - cbn [Py.hex_pos].
    assert (Hq : (N.pos p / 16 < 2 ^ N.of_nat fuel)%N).
    { apply N.Div0.div_lt_upper_bound.
      rewrite Nat2N.inj_succ, N.pow_succ_r' in H. lia. }
    destruct k as [|k].
    + destruct (N.pos p / 16)%N as [|q] eqn:Q; [simpl; lia|].
      assert (I := IH q (String (Py.hex_digit (N.pos p mod 16)) acc) 0 Hq).
      simpl in I. assert (1 <= N.pos q)%N by lia.
      specialize (I H0). simpl. lia.
    + assert (Lq : (16 ^ N.of_nat k <= N.pos p / 16)%N).
      { rewrite Nat2N.inj_succ, N.pow_succ_r' in L.
        apply N.div_le_lower_bound; lia. }
      destruct (N.pos p / 16)%N as [|q] eqn:Q.
      * exfalso. assert (0 < 16 ^ N.of_nat k)%N; [|lia].
        apply N.neq_0_lt_0, N.pow_nonzero. lia.
      * assert (I := IH q (String (Py.hex_digit (N.pos p mod 16)) acc) k
                       Hq Lq).
        simpl in I. lia.
Qed.

Lemma length_spaces (n : nat) : String.length (Py.spaces n) = n.
Proof. induction n; simpl; congruence. Qed.

(** X18: the digits written for a base address denote that address; an
    address of at least eight hexadecimal digits is written without any
    blank, and the field is never narrower than eight characters. *)
Theorem format_8X_digits (z : Z) :
  (0 <= z)%Z ->
  hex_value (Py.hex_upper z) = Some z
  /\ (268435456 <= z -> Py.format_8X z = Py.hex_upper z)%Z
  /\ 8 <= String.length (Py.format_8X z).
Proof.
  intros Hz. split; [|split].
  - destruct z as [|p|p]; [reflexivity| |lia].
    unfold Py.hex_upper, hex_value.
    destruct (hex_pos_value _ p "" (size_nat_bound p)) as [V NE].
    destruct (Py.hex_pos p (Pos.size_nat p) "") eqn:E; [congruence|].
    exact V.
  - intros H. destruct z as [|p|p]; try lia.
    unfold Py.format_8X, Py.hex_upper.
    assert (L := hex_pos_long _ p "" 7 (size_nat_bound p)).
    change (16 ^ N.of_nat 7)%N with 268435456%N in L.
    assert (8 <= String.length (Py.hex_pos p (Pos.size_nat p) "")).
    { simpl String.length in L at 1. apply L. lia. }
    replace (8 - String.length (Py.hex_pos p (Pos.size_nat p) "")) with 0
      by lia.
    reflexivity.
  - unfold Py.format_8X. rewrite length_append, length_spaces. lia.
Qed.

(** ** The command line *)

Lemma split_char_cons (sep : ascii) (s : string) :
  exists w ws, split_char sep s = w :: ws.
Proof.
  destruct s as [|c r]; cbn [split_char]; [now eexists; eexists|].
  destruct (Ascii.eqb c sep); [now eexists; eexists|].
  destruct (split_char sep r); now eexists; eexists.
Qed.

Lemma split_char_join (sep : ascii) (s : string) :
  Py.join (String sep "") (split_char sep s) = s.
Proof.
  induction s as [|c r IH]; cbn [split_char]; [reflexivity|].
  destruct (split_char_cons sep r) as [w [ws E]]. rewrite E in *.
  destruct (Ascii.eqb_spec c sep) as [->|Hne].
  - change (Py.join (String sep "") ("" :: w :: ws))
      with ("" ++ String sep "" ++ Py.join (String sep "") (w :: ws)).
    rewrite IH. reflexivity.
  - rewrite <- IH. destruct ws as [|w' ws]; reflexivity.
Qed.

Lemma split_char_pieces (sep : ascii) (s : string) :
  Forall (fun a => all_chars (fun c => negb (Ascii.eqb c sep)) a = true)
         (split_char sep s).
Proof.
  induction s as [|c r IH]; cbn [split_char].
  - repeat constructor.
  - destruct (Ascii.eqb c sep) eqn:E.
    + constructor; [reflexivity | exact IH].
    + destruct (split_char sep r) as [|w ws].
      * repeat constructor. simpl. now rewrite E.
      * inversion IH; subst. constructor; [|assumption].
        simpl. now rewrite E.
Qed.

(** X19: [rustfmt] is always given at least one argument, none of which
    holds a blank; joined by blanks the arguments are the text of [--fmt]
    without the apostrophes around it; a bare [--fmt] passes one empty
    argument. *)
Theorem rustfmt_args_spec (fmt : string) :
  (exists a rest, rustfmt_args fmt = a :: rest)
  /\ Forall (fun a => all_chars (fun c => negb (Ascii.eqb c " ")) a = true)
            (rustfmt_args fmt)
  /\ Py.join " " (rustfmt_args fmt) = strip_char "'" fmt
  /\ rustfmt_args "" = [""].
Proof.
  unfold rustfmt_args. split; [apply split_char_cons|].
  split; [apply split_char_pieces|].
  split; [apply split_char_join | reflexivity].
Qed.

Section MainProperties.

Variable upper_camel : string -> result string.

(** X20: [main] writes a text only when the arguments were parsed and the
    device was loaded and rendered: without [--fmt] the rendered text itself,
    with [--fmt] what the formatter printed, and this only if the formatter
    wrote nothing on its error stream. *)
Theorem main_writes_after_success
    (popen : list string -> string -> result (string * string))
    (parse_args : run Args) (svd : loaded) (text : string) :
  main upper_camel popen parse_args svd = Done text ->
  exists args dev code,
    parse_args = Done args
    /\ svd = Loaded dev
    /\ render upper_camel dev (a_peripherals args) = Ok code
    /\ ((a_fmt args = None /\ text = code)
        \/ exists fmt,
             a_fmt args = Some fmt
             /\ popen ((a_path args ++ "rustfmt") :: rustfmt_args fmt) code
                = Ok (text, "")).
Proof.
  unfold main, render. destruct parse_args as [args| |]; try discriminate.
  destruct svd as [dev| |e]; cbn [get_device]; try discriminate.
  destruct (generate upper_camel (parse (a_peripherals args) dev))
    as [code|e] eqn:G; [|discriminate].
  intros H. exists args, dev, code.
  split; [reflexivity|]. split; [reflexivity|]. split; [exact G|].
  destruct (a_fmt args) as [fmt|].
  - right. exists fmt. split; [reflexivity|]. unfold rustfmt in H.
    destruct (popen _ code) as [[out err]|e]; [|discriminate].
    destruct err; [|discriminate]. now inversion H.
  - left. split; [reflexivity | now inversion H].
Qed.

(** X21: [main] leaves through [sys.exit()] in three ways only: argparse
    itself left while parsing the arguments, with its own status and
    message; or, the arguments parsed, with status 0 because the SVD file is
    not found; or, with status 0, because the formatter wrote on its error
    stream: then the unformatted code and that error text are printed and
    what the formatter printed is dropped. *)
Theorem main_exits
    (popen : list string -> string -> result (string * string))
    (parse_args : run Args) (svd : loaded)
    (status : Z) (printed : list string) :
  main upper_camel popen parse_args svd = SysExit status printed ->
  parse_args = SysExit status printed
  \/ (status = 0%Z
      /\ exists args,
           parse_args = Done args
           /\ ((svd = NoFile /\ printed = ["No SVD file found"])
               \/ exists dev code fmt out err,
                    svd = Loaded dev
                    /\ render upper_camel dev (a_peripherals args) = Ok code
                    /\ a_fmt args = Some fmt
                    /\ popen ((a_path args ++ "rustfmt") :: rustfmt_args fmt)
                             code
                       = Ok (out, err)
                    /\ err <> ""
                    /\ printed = [code; err])).
Proof.
  unfold main, render.
  destruct parse_args as [args|st pr|x];
    [|intros H; left; now inversion H|discriminate].
  intros H. right.
  destruct svd as [dev| |e]; cbn [get_device] in H; try discriminate.
  - destruct (generate upper_camel (parse (a_peripherals args) dev))
      as [code|e] eqn:G; [|discriminate].
    destruct (a_fmt args) as [fmt|] eqn:F; [|discriminate].
    unfold rustfmt in H.
    destruct (popen _ code) as [[out err]|e] eqn:P; [|discriminate].
    destruct err as [|c err]; [discriminate|].
    inversion H; subst. split; [reflexivity|]. exists args.
    split; [reflexivity|]. right.
    exists dev, code, fmt, out, (String c err).
    repeat split; try assumption. discriminate.
  - inversion H. split; [reflexivity|]. exists args.
    split; [reflexivity|]. now left.
Qed.

(** X22: the formatter is started only with [--fmt] and only after the
    arguments are parsed and the device is loaded and rendered: otherwise
    the outcome of [main] does not depend on it. *)
Theorem main_without_formatter
    (popen popen' : list string -> string -> result (string * string))
    (parse_args : run Args) (svd : loaded) :
  (forall args, parse_args = Done args ->
     a_fmt args = None
     \/ (forall dev, svd = Loaded dev ->
           exists e, render upper_camel dev (a_peripherals args) = Raise e)) ->
  main upper_camel popen parse_args svd
  = main upper_camel popen' parse_args svd.
Proof.
  unfold main, render. intros H.
  destruct parse_args as [args| |]; try reflexivity.
  destruct (H args eq_refl) as [F|R].
  - destruct (get_device svd); try reflexivity.
    destruct (generate upper_camel _); [|reflexivity]. now rewrite F.
  - destruct svd as [dev| |e]; cbn [get_device]; try reflexivity.
    destruct (R dev eq_refl) as [e ->]. reflexivity.
Qed.

End MainProperties.

(** ** What rendering depends on *)

Section Dependence.

Variable upper_camel : string -> result string.

Lemma generate_peripherial_total (p : Peripheral) :
  (forall r, In r (registers p) -> known_access r = true) ->
  (forall r f, In r (registers p) -> has_bitfields r = true ->
               In f (_fields r) -> is_enumerated_type f = false) ->
  exists out, generate_peripherial upper_camel p = Ok out.
Proof.
  intros Ha Hf.
  unfold generate_peripherial, generate_peripheral_struct,
    generate_bitfields_macro, PeripheralStruct, BitfieldsMacro.
  destruct (mapM_total PeripheralStructField (registers p)) as [fields ->].
  { intros r Hr.
    destruct (proj1 (struct_field_by_access r) (Ha r Hr)) as [m [_ ->]].
    now eexists. }
  cbn [bind].
  destruct (mapM_total (Bitfield upper_camel)
              (filter has_bitfields (registers p))) as [blocks ->].
  { intros r Hr. apply filter_In in Hr. destruct Hr as [Hr Hb].
    apply Bitfield_plain. intros f Hin. now apply (Hf r f). }
  cbn [bind]. now eexists.
Qed.

(** X23: rendering succeeds whenever every register of the selected
    peripherals has one of the three access modes and no register with more
    than one field has an enumerated field; [upper_camel] is then never a
    cause of failure. *)
Theorem render_total_without_enumerations (dev : Device) (sel : list string) :
  (forall p r, In p (parse sel dev) -> In r (registers p) ->
               known_access r = true) ->
  (forall p r f, In p (parse sel dev) -> In r (registers p) ->
                 has_bitfields r = true -> In f (_fields r) ->
                 is_enumerated_type f = false) ->
  exists out, render upper_camel dev sel = Ok out.
Proof.
  intros Ha Hf. unfold render, generate.
  destruct (mapM_total (generate_peripherial upper_camel) (parse sel dev))
    as [parts ->].
  { intros p Hp. apply generate_peripherial_total.
    - intros r Hr. now apply (Ha p r).
    - intros r f Hr Hb Hin. now apply (Hf p r f). }
  cbn [bind]. now eexists.
Qed.

Lemma PeripheralStructField_same (r r' : Register) :
  same_but_single_field r r' ->
  PeripheralStructField r = PeripheralStructField r'.
Proof.
  intros [Hn [Hd [Hs [Ha Hf]]]].
  unfold PeripheralStructField, PeripheralStructField_definition.
  rewrite Hn, Hd, Hs, Ha.
  destruct Hf as [->|[-> ->]]; reflexivity.
Qed.

Lemma mapM_Bitfield_same (regs regs' : list Register) :
  Forall2 same_but_single_field regs regs' ->
  mapM (Bitfield upper_camel) (filter has_bitfields regs)
  = mapM (Bitfield upper_camel) (filter has_bitfields regs').
Proof.
  induction 1 as [|r r' regs regs' [Hn [_ [_ [_ Hf]]]] _ IH]; [reflexivity|].
  cbn [filter].
  assert (Hb : has_bitfields r = has_bitfields r').
  { unfold has_bitfields. destruct Hf as [->|[-> ->]]; reflexivity. }
  rewrite Hb. destruct (has_bitfields r') eqn:E; [|exact IH].
  cbn [mapM]. rewrite IH.
  assert (B : Bitfield upper_camel r = Bitfield upper_camel r').
  { destruct Hf as [Hf|[_ H1]].
    - unfold Bitfield. now rewrite Hn, Hf.
    - unfold has_bitfields in E. rewrite H1 in E. discriminate. }
  now rewrite B.
Qed.

(** X24: the field of a register with exactly one field is never rendered:
    replacing it by any other single field (other name, bits, enumerated
    values) leaves the text of the peripheral, or its failure, unchanged. *)
Theorem single_field_not_rendered
    (name description : string) (base : Z) (regs regs' : list Register) :
  Forall2 same_but_single_field regs regs' ->
  generate_peripherial upper_camel (mkPeripheral name description base regs)
  = generate_peripherial upper_camel (mkPeripheral name description base regs').
Proof.
  intros H.
  unfold generate_peripherial, generate_peripheral_struct,
    generate_bitfields_macro, PeripheralStruct, BitfieldsMacro.
  cbn [registers p_name p_description].
  assert (S : mapM PeripheralStructField regs
              = mapM PeripheralStructField regs').
  { induction H as [|r r' regs regs' Hr _ IH]; [reflexivity|].
    cbn [mapM]. now rewrite (PeripheralStructField_same r r' Hr), IH. }
  rewrite S, (mapM_Bitfield_same regs regs' H). reflexivity.
Qed.

End Dependence.

(** ** The further properties at concrete inputs *)

Lemma comment_body_stripped_witness :
  comment "  Fast mode  " = "/// Fast mode"
  /\ Py.is_space "F" = false /\ Py.is_space "e" = false.
Proof.
  destruct (comment_body_stripped "  Fast mode  ") as [E [H1 H2]].
  split; [exact E | split].
  - exact (H1 "F"%char "ast mode" eq_refl).
  - exact (H2 "Fast mod" "e"%char eq_refl).
Defined.

Lemma comment_of_blank_prefix_witness :
  is_blank_text (Py.take COMMENT_MAX_LENGTH (repeat_char " " 80 ++ "Mode"))
  = true
  /\ comment (repeat_char " " 80 ++ "Mode") = "/// ".
Proof.
  split; [reflexivity|].
  exact (comment_of_blank_prefix (repeat_char " " 80 ++ "Mode") eq_refl).
Defined.

Lemma comment_single_line_witness :
  no_newline "Control register" = true
  /\ no_newline (comment "Control register") = true.
Proof.
  split; [reflexivity|].
  exact (comment_single_line "Control register" eq_refl).
Defined.

Lemma PeripheralStructField_access_witness :
  known_access count_register = true
  /\ known_access odd_register = false
  /\ PeripheralStructField odd_register = Raise (KeyError "writeOnce")
  /\ exists mode,
       PeripheralStructField count_register
       = Ok ("/// Counter value" ++ NL ++ "count: " ++ mode ++ "<u32>,").
Proof.
  split; [reflexivity | split; [reflexivity | split]].
  - exact (proj2 (PeripheralStructField_access odd_register) eq_refl).
  - destruct (proj1 (PeripheralStructField_access count_register) eq_refl)
      as [mode [_ E]].
    exists mode. exact E.
Defined.

Lemma generate_peripherial_KeyError_first_witness :
  find (fun r => negb (known_access r)) (registers odd_peripheral)
  = Some odd_register
  /\ generate_peripherial upper_camel_model odd_peripheral
     = Raise (KeyError "writeOnce").
Proof.
  split; [reflexivity|].
  exact (generate_peripherial_KeyError_first upper_camel_model odd_peripheral
           odd_register eq_refl).
Defined.

Lemma generate_first_failure_witness :
  (forall q, In q [timer] ->
             exists t, generate_peripherial upper_camel_model q = Ok t)
  /\ generate_peripherial upper_camel_model long_peripheral
     = Raise no_startswith
  /\ generate upper_camel_model [timer; long_peripheral; odd_peripheral]
     = Raise no_startswith.
Proof.
  assert (H : forall q, In q [timer] ->
                        exists t, generate_peripherial upper_camel_model q
                                  = Ok t).
  { intros q [<-|[]]. eexists. reflexivity. }
  split; [exact H | split; [reflexivity|]].
  exact (generate_first_failure upper_camel_model [timer] long_peripheral
           [odd_peripheral] no_startswith H eq_refl).
Defined.

Lemma parse_membership_witness :
  In (uart "UART1" 1073750016) (parse ["UART1"] soc).
Proof.
  apply (proj2 (parse_membership ["UART1"] soc (uart "UART1" 1073750016))).
  split; [right; now left | right; now left].
Defined.

Lemma parse_selection_as_set_witness :
  (forall x, In x ["UART1"; "UART0"; "UART1"] <-> In x ["UART0"; "UART1"])
  /\ parse ["UART1"; "UART0"; "UART1"] soc = peripherals soc.
Proof.
  assert (H : forall x, In x ["UART1"; "UART0"; "UART1"]
                        <-> In x ["UART0"; "UART1"]).
  { intros x. simpl. tauto. }
  split; [exact H|].
  exact (parse_selection_as_set _ ["UART0"; "UART1"] soc H).
Defined.

Lemma variant_named_by_description_witness :
  upper_camel_model (digit_escaped "fast mode") = Ok "FastMode"
  /\ usable "FastMode"
  /\ BitfieldFieldEnum upper_camel_model (mkEnum "FAST" "fast mode" 1)
     = Ok ("        /// fast mode" ++ NL ++ "        FastMode = 1").
Proof.
  assert (U : usable "FastMode") by (unfold usable; simpl; lia).
  split; [reflexivity | split; [exact U|]].
  exact (variant_named_by_description upper_camel_model
           (mkEnum "FAST" "fast mode" 1) "FastMode" eq_refl U).
Defined.

Lemma variant_named_by_name_witness :
  ~ usable (String "A" (repeat_char "a" 79))
  /\ usable "Fast"
  /\ exists text,
       BitfieldFieldEnum upper_camel_model
         (mkEnum "fast" (repeat_char "a" 80) 1) = Ok text
       /\ Py.contains "        Fast = 1" text = true.
Proof.
  assert (Ud : ~ usable (String "A" (repeat_char "a" 79)))
    by (unfold usable; simpl; lia).
  assert (Un : usable "Fast") by (unfold usable; simpl; lia).
  split; [exact Ud | split; [exact Un|]].
  eexists. split.
  - exact (variant_named_by_name upper_camel_model
             (mkEnum "fast" (repeat_char "a" 80) 1)
             (String "A" (repeat_char "a" 79)) "Fast"
             eq_refl Ud eq_refl Un).
  - reflexivity.
Defined.

Lemma variant_exception_escapes_witness :
  upper_camel_model (digit_escaped (e_description unnamed_value))
  = Raise (LibraryError "Invalid identifier")
  /\ upper_camel_model (digit_escaped (e_name unnamed_value)) = Ok "IDLE"
  /\ BitfieldFieldEnum upper_camel_model unnamed_value
     = Raise (LibraryError "Invalid identifier").
Proof.
  split; [reflexivity | split; [reflexivity|]].
  exact (proj1 (variant_exception_escapes upper_camel_model unnamed_value
                  (LibraryError "Invalid identifier")) eq_refl).
Defined.

Lemma enumerated_values_distinct_witness :
  NoDup (map e_description [mkEnum "FAST" "Fast" 0; mkEnum "SLOW" "Slow" 1])
  /\ BitfieldField_enumerated_values
       (mkField "MODE" "Mode" 1 2 true
          [mkEnum "FAST" "Fast" 0; mkEnum "SLOW" "Slow" 1])
     = [mkEnum "FAST" "Fast" 0; mkEnum "SLOW" "Slow" 1].
Proof.
  assert (N : NoDup (map e_description
                       [mkEnum "FAST" "Fast" 0; mkEnum "SLOW" "Slow" 1])).
  { constructor.
    - intros [H|[]]. discriminate.
    - constructor; [intros [] | constructor]. }
  split; [exact N|].
  exact (proj1 (enumerated_values_distinct
                  (mkField "MODE" "Mode" 1 2 true
                     [mkEnum "FAST" "Fast" 0; mkEnum "SLOW" "Slow" 1])) N).
Defined.

Lemma blocks_of_multi_field_registers_witness :
  generate_peripherial upper_camel_model (uart "UART0" 1073745920)
  = Ok (text_of (uart "UART0" 1073745920))
  /\ exists blocks,
       Forall2
         (fun r b =>
            exists fields,
              length fields = length (_fields r)
              /\ b = NL ++ r_name r ++ " [" ++ NL
                     ++ Py.join ("," ++ NL) fields ++ NL ++ "]")
         [ctrl_register "Control" "Enable" "Mode" "FAST" "SLOW" 0 1] blocks.
Proof.
  split; [reflexivity|].
  destruct (blocks_of_multi_field_registers upper_camel_model
              (uart "UART0" 1073745920) (text_of (uart "UART0" 1073745920))
              eq_refl) as [s [blocks [_ [_ [F _]]]]].
  exists blocks. exact F.
Defined.

Lemma enumerated_field_without_values_witness :
  BitfieldField upper_camel_model (mkField "MODE" "Mode" 1 2 true [])
  = Ok ("    /// Mode" ++ NL ++ "    MODE OFFSET(1) NUMBITS(2) ["
        ++ NL ++ NL ++ "    ]").
Proof.
  exact (enumerated_field_without_values upper_camel_model
           (mkField "MODE" "Mode" 1 2 true []) eq_refl eq_refl).
Defined.

Lemma format_8X_digits_witness :
  (0 <= 1073745920)%Z
  /\ hex_value (Py.hex_upper 1073745920) = Some 1073745920%Z
  /\ Py.format_8X 1073745920 = "40001000".
Proof.
  assert (H : (0 <= 1073745920)%Z) by lia.
  destruct (format_8X_digits 1073745920 H) as [V [F _]].
  split; [exact H | split; [exact V|]].
  rewrite F; [reflexivity | lia].
Defined.

Lemma main_writes_after_success_witness :
  main upper_camel_model popen_quiet
       (Done (mkArgs [] (Some "'--force'") "bin/")) (Loaded timer_device)
  = Done "bin/rustfmt --force"
  /\ exists code,
       render upper_camel_model timer_device [] = Ok code
       /\ popen_quiet ["bin/rustfmt"; "--force"] code
          = Ok ("bin/rustfmt --force", "").
Proof.
  split; [reflexivity|].
  destruct (main_writes_after_success upper_camel_model popen_quiet
              (Done (mkArgs [] (Some "'--force'") "bin/"))
              (Loaded timer_device) "bin/rustfmt --force" eq_refl)
    as [args [dev [code [A [L [R [[F _]|[fmt [F P]]]]]]]]].
  - injection A as <-. discriminate F.
  - injection A as <-. injection L as <-. injection F as <-.
    exists code. split; [exact R | exact P].
Defined.

Lemma main_exits_witness :
  main upper_camel_model popen_failing (Done (mkArgs [] (Some "") ""))
       (Loaded timer_device)
  = SysExit 0 [Includes ++ text_of timer; "error: unexpected token"]
  /\ main upper_camel_model popen_failing usage_error (Loaded timer_device)
     = SysExit 2
         ["svd2regs.py: error: one of the arguments --mcu --svd is required"]
  /\ exists code out err,
       render upper_camel_model timer_device [] = Ok code
       /\ popen_failing ["rustfmt"; ""] code = Ok (out, err)
       /\ err <> "".
Proof.
  split; [reflexivity | split; [reflexivity|]].
  destruct (main_exits upper_camel_model popen_failing
              (Done (mkArgs [] (Some "") "")) (Loaded timer_device) 0
              [Includes ++ text_of timer; "error: unexpected token"] eq_refl)
    as [A|[_ [args [A [[L _]|[dev [code [fmt [out [err
         [L [R [F [P [E _]]]]]]]]]]]]]]].
  - discriminate A.
  - discriminate L.
  - injection A as <-. injection L as <-. injection F as <-.
    exists code, out, err. split; [exact R | split; [exact P | exact E]].
Defined.

Lemma main_without_formatter_witness :
  main upper_camel_model popen_quiet (Done (mkArgs ["TIMER"] None ""))
       (Loaded timer_device)
  = main upper_camel_model popen_failing (Done (mkArgs ["TIMER"] None ""))
         (Loaded timer_device).
Proof.
  apply (main_without_formatter upper_camel_model popen_quiet popen_failing
           (Done (mkArgs ["TIMER"] None "")) (Loaded timer_device)).
  intros args A. injection A as <-. now left.
Defined.

Lemma render_total_without_enumerations_witness :
  (forall p r, In p (parse [] timer_device) -> In r (registers p) ->
               known_access r = true)
  /\ exists out, render upper_camel_model timer_device [] = Ok out.
Proof.
  assert (Ha : forall p r, In p (parse [] timer_device) ->
                           In r (registers p) -> known_access r = true).
  { intros p r [<-|[]] [<-|[]]. reflexivity. }
  split; [exact Ha|].
  apply (render_total_without_enumerations upper_camel_model timer_device []
           Ha).
  intros p r f [<-|[]] [<-|[]] Hb. discriminate Hb.
Defined.

Lemma single_field_not_rendered_witness :
  Forall2 same_but_single_field
    [count_register]
    [mkRegister "COUNT" "Counter value" 32 "read-write"
       [mkField "mod" "Other" 3 5 true [long_value]]]
  /\ generate_peripherial upper_camel_model
       (mkPeripheral "TIMER" "Simple timer" 4096
          [mkRegister "COUNT" "Counter value" 32 "read-write"
             [mkField "mod" "Other" 3 5 true [long_value]]])
     = generate_peripherial upper_camel_model timer.
Proof.
  assert (H : Forall2 same_but_single_field
    [count_register]
    [mkRegister "COUNT" "Counter value" 32 "read-write"
       [mkField "mod" "Other" 3 5 true [long_value]]]).
  { constructor; [|constructor].
    unfold same_but_single_field. simpl. repeat split. right. now split. }
  split; [exact H|]. symmetry.
  exact (single_field_not_rendered upper_camel_model
           "TIMER" "Simple timer" 4096 _ _ H).
Defined.
